(** * Static-gratings tuning metrics: a shallow embedding

    Source: allensdk/brain_observatory/ecephys/stimulus_analysis/static_gratings.py

    Conventions of the embedding.
    - A finite float64 is a rational number [Q].  The IEEE special values
      that numpy produces instead of raising (x/0, sqrt of a negative number)
      are the constructors [PInf], [NInf] and [NaN] of [np_float].  Signed
      zeros are not modelled: every zero divisor met in the source is a
      positive zero.
    - In [get_sfdi] every float operation is the rounding of its exact
      result; the rounding, np.sum and np.sqrt are parameters, and
      [Binary64] gives those of IEEE double precision.  Elsewhere (the means
      of the preferred-value search, the grid of [fit_sf_tuning]) the
      arithmetic is exact.
    - Library numerics that are not rational (np.exp, np.power, the
      trigonometric functions) and scipy's curve_fit are parameters of the
      functions that call them.
    - A Python exception is a value [Raise e] of the [result] monad. *)

From Stdlib Require Import List ZArith QArith Qabs Qround Lia Lqa Bool Sorted.
From Stdlib Require String.
Import ListNotations.
Open Scope Q_scope.

(** ** Exceptions *)

Inductive exn : Type :=
| KeyError            (* pandas: label not found; the spec's MissingDataError *)
| ValueError          (* numpy: reduction of an empty array *)
| IndexError          (* list index out of range *)
| TypeError           (* None used as a sequence *)
| RuntimeError        (* scipy: curve_fit did not converge *)
| UndefinedIndexError (* the spec's undefined-index signal *).

Inductive result (A : Type) : Type :=
| Ok (a : A)
| Raise (e : exn).
Arguments Ok {A} a.
Arguments Raise {A} e.

Definition bind {A B} (m : result A) (k : A -> result B) : result B :=
  match m with
  | Ok a => k a
  | Raise e => Raise e
  end.

Notation "x <- m ;; k" := (bind m (fun x => k))
  (at level 61, m at next level, right associativity).

(** A list comprehension whose body may raise: the first exception aborts it. *)
Fixpoint mapM {A B} (f : A -> result B) (l : list A) : result (list B) :=
  match l with
  | [] => Ok []
  | a :: t => b <- f a ;; bs <- mapM f t ;; Ok (b :: bs)
  end.

(** ** numpy *)

Module NumPy.

Inductive np_float : Type :=
| Fin (q : Q)
| PInf
| NInf
| NaN.

Definition Qlt_bool (a b : Q) : bool := negb (Qle_bool b a).

Definition fadd (x y : np_float) : np_float :=
  match x, y with
  | NaN, _ | _, NaN => NaN
  | Fin a, Fin b => Fin (a + b)
  | PInf, NInf | NInf, PInf => NaN
  | PInf, _ | _, PInf => PInf
  | NInf, _ | _, NInf => NInf
  end.

Definition fneg (x : np_float) : np_float :=
  match x with
  | Fin a => Fin (- a)
  | PInf => NInf
  | NInf => PInf
  | NaN => NaN
  end.

Definition fsub (x y : np_float) : np_float := fadd x (fneg y).

Definition inf_of_sign (positive : bool) : np_float :=
  if positive then PInf else NInf.

Definition fmul (x y : np_float) : np_float :=
  match x, y with
  | NaN, _ | _, NaN => NaN
  | Fin a, Fin b => Fin (a * b)
  | Fin a, PInf | PInf, Fin a =>
      if Qeq_bool a 0 then NaN else inf_of_sign (Qlt_bool 0 a)
  | Fin a, NInf | NInf, Fin a =>
      if Qeq_bool a 0 then NaN else inf_of_sign (Qlt_bool a 0)
  | PInf, PInf | NInf, NInf => PInf
  | PInf, NInf | NInf, PInf => NInf
  end.

(** Division never raises on float64 scalars: x/0 is an infinity, 0/0 is
    NaN (numpy only warns). *)
Definition fdiv (x y : np_float) : np_float :=
  match x, y with
  | NaN, _ | _, NaN => NaN
  | Fin a, Fin b =>
      if Qeq_bool b 0
      then (if Qeq_bool a 0 then NaN else inf_of_sign (Qlt_bool 0 a))
      else Fin (a / b)
  | Fin _, _ => Fin 0
  | PInf, Fin b => inf_of_sign (Qle_bool 0 b)
  | NInf, Fin b => inf_of_sign (Qlt_bool b 0)
  | _, _ => NaN
  end.

Definition Qsum (l : list Q) : Q := fold_left Qplus l 0.

Definition len {A} (l : list A) : Z := Z.of_nat (length l).

(** First position of a maximum, as np.argmax and pandas idxmax give it. *)
Fixpoint argmax_from (best_i : nat) (best : Q) (i : nat) (l : list Q) : nat :=
  match l with
  | [] => best_i
  | x :: t =>
      if Qlt_bool best x then argmax_from i x (S i) t
      else argmax_from best_i best (S i) t
  end.

Definition argmax (l : list Q) : result nat :=
  match l with
  | [] => Raise ValueError
  | x :: t => Ok (argmax_from 0%nat x 1%nat t)
  end.

Fixpoint argmin_from (best_i : nat) (best : Q) (i : nat) (l : list Q) : nat :=
  match l with
  | [] => best_i
  | x :: t =>
      if Qlt_bool x best then argmin_from i x (S i) t
      else argmin_from best_i best (S i) t
  end.

Definition argmin (l : list Q) : result nat :=
  match l with
  | [] => Raise ValueError
  | x :: t => Ok (argmin_from 0%nat x 1%nat t)
  end.

Definition Qmax (a b : Q) : Q := if Qlt_bool a b then b else a.
Definition Qmin (a b : Q) : Q := if Qlt_bool b a then b else a.

Definition amax (l : list Q) : result Q :=
  match l with
  | [] => Raise ValueError
  | x :: t => Ok (fold_left Qmax t x)
  end.

Definition amin (l : list Q) : result Q :=
  match l with
  | [] => Raise ValueError
  | x :: t => Ok (fold_left Qmin t x)
  end.

(** np.arange(start, stop, step) for a positive step: ceil((stop-start)/step)
    samples start + i*step. *)
Definition arange (start stop step : Q) : list Q :=
  map (fun i => start + inject_Z (Z.of_nat i) * step)
      (seq 0 (Z.to_nat (Qceiling ((stop - start) / step)))).

(** np.arange(n) as floats. *)
Definition arange_n (n : nat) : list Q :=
  map (fun i => inject_Z (Z.of_nat i)) (seq 0 n).

(** Python indexing of a sequence: negative positions count from the end. *)
Definition getitem {A} (l : list A) (i : Z) : result A :=
  let n := len l in
  let j := (if i <? 0 then i + n else i)%Z in
  if ((0 <=? j) && (j <? n))%Z
  then match nth_error l (Z.to_nat j) with
       | Some a => Ok a
       | None => Raise IndexError
       end
  else Raise IndexError.

(** np.sort on a float array (ascending). *)
Fixpoint insert_sorted (x : Q) (l : list Q) : list Q :=
  match l with
  | [] => [x]
  | y :: t => if Qle_bool x y then x :: l else y :: insert_sorted x t
  end.

Fixpoint sort (l : list Q) : list Q :=
  match l with
  | [] => []
  | x :: t => insert_sorted x (sort t)
  end.

(** *** float64 arithmetic with rounding

    An operation on two finite floats is the rounding [rnd] of its exact
    result: a finite float, or an infinity when the result overflows.  The
    rounding is a parameter; [Binary64.binary64] below is the rounding of
    IEEE double precision.  The special values follow the rules above. *)

Section Rounded.

Variable rnd : Q -> np_float.

Definition radd (x y : np_float) : np_float :=
  match x, y with
  | Fin a, Fin b => rnd (a + b)
  | _, _ => fadd x y
  end.

Definition rsub (x y : np_float) : np_float := radd x (fneg y).

Definition rmul (x y : np_float) : np_float :=
  match x, y with
  | Fin a, Fin b => rnd (a * b)
  | _, _ => fmul x y
  end.

Definition rdiv (x y : np_float) : np_float :=
  match x, y with
  | Fin a, Fin b => if Qeq_bool b 0 then fdiv x y else rnd (a / b)
  | _, _ => fdiv x y
  end.

(** [np.ptp] of a float array: the rounded difference of the maximum and
    the minimum. *)
Definition ptp (l : list Q) : result np_float :=
  hi <- amax l ;; lo <- amin l ;; Ok (rnd (hi - lo)).

(** A number that the rounding leaves alone, in whatever way it is
    written: a float. *)
Definition representable (r : Q) : Prop :=
  forall q, q == r -> rnd q = Fin r.

End Rounded.

End NumPy.
Import NumPy.

(** ** pandas *)

Module Pandas.

(** A row of the stimulus-condition table: the index (condition id) and the
    three stimulus columns.  [None] is the string 'null' of a blank
    condition. *)
Record condition : Type := {
  condition_id : Z;
  Ori : option Q;
  SF : option Q;
  Phase : option Q
}.

Definition column : Type := condition -> option Q.

(** A row of the conditionwise-statistics table, whose index has the two
    levels (unit id, condition id). *)
Record stat_row : Type := {
  unit_id : Z;
  stimulus_condition_id : Z;
  spike_mean : Q
}.

(** A frame selected by label: label and spike_mean, [None] for the NaN of a
    reindexed row. *)
Definition frame : Type := list (Z * option Q).

(** What [.loc[list_of_labels]] does when a label is absent. *)
Inductive loc_policy : Type :=
| RaiseOnAnyMissing   (* pandas >= 1.0: KeyError as soon as one label is absent *)
| ReindexMissing      (* pandas < 1.0: a NaN row per absent label, KeyError
                         only when no label at all is found *).

(** [col == value] on one cell: the string 'null' equals no number, NaN
    equals nothing. *)
Definition cell_eq (c : option Q) (v : np_float) : bool :=
  match c, v with
  | Some q, Fin p => Qeq_bool q p
  | _, _ => false
  end.

(** [tbl.loc[tbl[col] != 'null'][col]] *)
Definition non_null (col : column) (tbl : list condition) : list Q :=
  flat_map (fun c => match col c with Some v => [v] | None => [] end) tbl.

(** [Series.unique()]: first occurrences, in order of appearance. *)
Fixpoint unique (l : list Q) : list Q :=
  match l with
  | [] => []
  | x :: t => x :: filter (fun y => negb (Qeq_bool x y)) (unique t)
  end.

(** [tbl.index[tbl[col] == v].tolist()] *)
Definition index_where (col : column) (v : Q) (tbl : list condition) : list Z :=
  map condition_id (filter (fun c => cell_eq (col c) (Fin v)) tbl).

(** [df.loc[unit_id]] on the first index level. *)
Definition loc_unit (df : list stat_row) (u : Z) : result (list stat_row) :=
  match filter (fun r => (unit_id r =? u)%Z) df with
  | [] => Raise KeyError
  | rows => Ok rows
  end.

Definition rows_of_label (rows : list stat_row) (c : Z) : frame :=
  map (fun r => (c, Some (spike_mean r)))
      (filter (fun r => (stimulus_condition_id r =? c)%Z) rows).

Definition is_nil {A} (l : list A) : bool :=
  match l with [] => true | _ => false end.

(** [df.loc[labels]] on the remaining index level. *)
Definition loc_labels (policy : loc_policy) (rows : list stat_row)
    (labels : list Z) : result frame :=
  let found := map (fun c => (c, rows_of_label rows c)) labels in
  match policy with
  | RaiseOnAnyMissing =>
      if existsb (fun cf => is_nil (snd cf)) found then Raise KeyError
      else Ok (flat_map snd found)
  | ReindexMissing =>
      if forallb (fun cf => is_nil (snd cf)) found && negb (is_nil labels)
      then Raise KeyError
      else Ok (flat_map (fun cf => if is_nil (snd cf) then [(fst cf, None)]
                                   else snd cf) found)
  end.

(** The non-NaN cells of a column. *)
Definition dropna (col : list (option Q)) : list Q :=
  flat_map (fun c => match c with Some v => [v] | None => [] end) col.

(** [Series.mean()], which skips NaN; NaN when nothing is left. *)
Definition series_mean (col : list (option Q)) : option Q :=
  match dropna col with
  | [] => None
  | vals => Some (Qsum vals / inject_Z (len vals))
  end.

(** [DataFrame(index=.., data={'spike_mean': ..}).idxmax().iloc[0]]: the
    label of the first maximum among the non-NaN cells; NaN when every cell
    is NaN; ValueError on an empty frame. *)
Fixpoint idxmax_from (best_k best_v : Q) (l : list (Q * option Q)) : Q :=
  match l with
  | [] => best_k
  | (_, None) :: t => idxmax_from best_k best_v t
  | (k, Some v) :: t =>
      if Qlt_bool best_v v then idxmax_from k v t
      else idxmax_from best_k best_v t
  end.

Fixpoint idxmax_skipna (l : list (Q * option Q)) : np_float :=
  match l with
  | [] => NaN
  | (_, None) :: t => idxmax_skipna t
  | (k, Some v) :: t => Fin (idxmax_from k v t)
  end.

Definition idxmax (df : list (Q * option Q)) : result np_float :=
  match df with
  | [] => Raise ValueError
  | _ => Ok (idxmax_skipna df)
  end.

(** Order of the 'Ori' sort key: numbers ascending, and the string 'null'
    equal to itself.  A number and a string are never compared by
    [sort_by_key]: [sort_values] raises before. *)
Definition key_le (a b : option Q) : bool :=
  match a, b with
  | Some x, Some y => Qle_bool x y
  | Some _, None => true
  | None, Some _ => false
  | None, None => true
  end.

Fixpoint insert_by_key {A} (x : option Q * A) (l : list (option Q * A))
  : list (option Q * A) :=
  match l with
  | [] => [x]
  | y :: t => if key_le (fst x) (fst y) then x :: l
              else y :: insert_by_key x t
  end.

Fixpoint sort_by_key {A} (l : list (option Q * A)) : list (option Q * A) :=
  match l with
  | [] => []
  | x :: t => insert_by_key x (sort_by_key t)
  end.

Definition is_null_key {A} (r : option Q * A) : bool :=
  match fst r with None => true | Some _ => false end.

(** A key column that holds the string 'null' and a number. *)
Definition mixed_keys {A} (l : list (option Q * A)) : bool :=
  existsb is_null_key l && existsb (fun r => negb (is_null_key r)) l.

(** [df.sort_values(by=[key])]: sorting compares the keys with [<], which
    raises TypeError between a string and a float. *)
Definition sort_values {A} (l : list (option Q * A))
  : result (list (option Q * A)) :=
  if mixed_keys l then Raise TypeError else Ok (sort_by_key l).

End Pandas.
Import Pandas.

(** ** The StaticGratings class *)

Module StaticGratings.

(** The instance: the two input tables and the unit ids of the session
    (inherited from StimulusAnalysis), and the cached attributes that
    [__init__] sets to None. *)
Record t : Type := {
  stimulus_conditions : list condition;
  conditionwise_statistics : list stat_row;
  unit_ids : list Z;
  _orivals : option (list Q);
  _number_ori : option Z;
  _sfvals : option (list Q);
  _number_sf : option Z;
  _phasevals : option (list Q);
  _number_phase : option Z
}.

Definition __init__ (conds : list condition) (stats : list stat_row)
    (units : list Z) : t :=
  {| stimulus_conditions := conds;
     conditionwise_statistics := stats;
     unit_ids := units;
     _orivals := None; _number_ori := None;
     _sfvals := None; _number_sf := None;
     _phasevals := None; _number_phase := None |}.

(** [np.sort(tbl.loc[tbl[col] != 'null'][col].unique())] *)
Definition axis_values (col : column) (tbl : list condition) : list Q :=
  sort (unique (non_null col tbl)).

(** Lines 150-161, assignment by assignment: the last one stores the number
    of spatial frequencies a second time, and [_number_phase] is not
    assigned. *)
Definition _get_stim_table_stats (self : t) : t :=
  let orivals := axis_values Ori (stimulus_conditions self) in
  let number_ori := len orivals in
  let sfvals := axis_values SF (stimulus_conditions self) in
  let number_sf := len sfvals in
  let phasevals := axis_values Phase (stimulus_conditions self) in
  let number_sf' := len sfvals in
  {| stimulus_conditions := stimulus_conditions self;
     conditionwise_statistics := conditionwise_statistics self;
     unit_ids := unit_ids self;
     _orivals := Some orivals;
     _number_ori := Some number_ori;
     _sfvals := Some sfvals;
     _number_sf := Some number_sf';
     _phasevals := Some phasevals;
     _number_phase := _number_phase self |}.

(** A cached property: fill the cache when the attribute is None, then
    return the attribute.  The result is the returned value and the
    instance after the call. *)
Definition cached {A} (attr : t -> option A) (self : t) : option A * t :=
  let self' := match attr self with
               | None => _get_stim_table_stats self
               | Some _ => self
               end in
  (attr self', self').

Definition orivals : t -> option (list Q) * t := cached _orivals.
Definition number_ori : t -> option Z * t := cached _number_ori.
Definition sfvals : t -> option (list Q) * t := cached _sfvals.
Definition number_sf : t -> option Z * t := cached _number_sf.
Definition phasevals : t -> option (list Q) * t := cached _phasevals.
Definition number_phase : t -> option Z * t := cached _number_phase.

(** Iterating over a property value; None is not iterable. *)
Definition iter {A} (v : option (list A)) : result (list A) :=
  match v with
  | Some l => Ok l
  | None => Raise TypeError
  end.

(** The three stimulus dimensions and their columns. *)
Inductive axis_name : Type := OriAxis | SfAxis | PhaseAxis.

Definition column_of (a : axis_name) : column :=
  match a with
  | OriAxis => Ori
  | SfAxis => SF
  | PhaseAxis => Phase
  end.

(** A condition is on an axis when its cell in the column is not 'null'. *)
Definition on_axis (col : column) (c : condition) : bool :=
  match col c with Some _ => true | None => false end.

(** The statistics table has a row for the unit and the condition. *)
Definition has_statistic (stats : list stat_row) (unit c : Z) : bool :=
  existsb (fun r => (unit_id r =? unit)%Z && (stimulus_condition_id r =? c)%Z)
          stats.

(** The unit has a statistic for at least one condition on the axis. *)
Definition touches_axis (col : column) (conds : list condition)
    (stats : list stat_row) (unit : Z) : bool :=
  existsb (fun c => on_axis col c && has_statistic stats unit (condition_id c))
          conds.

(** The unit has a statistic for every condition on the axis. *)
Definition covers_axis (col : column) (conds : list condition)
    (stats : list stat_row) (unit : Z) : bool :=
  forallb (fun c => implb (on_axis col c)
                          (has_statistic stats unit (condition_id c)))
          conds.

Section Methods.

Variable policy : loc_policy.

(** The mean over the conditions [condition_inds] of the unit's spike_mean:
    [conditionwise_statistics.loc[unit_id].loc[condition_inds]['spike_mean'].mean()] *)
Definition mean_response (self : t) (unit : Z) (condition_inds : list Z)
  : result (option Q) :=
  rows <- loc_unit (conditionwise_statistics self) unit ;;
  df <- loc_labels policy rows condition_inds ;;
  Ok (series_mean (map snd df)).

(** The body shared by [_get_pref_sf], [_get_pref_ori] and [_get_pref_phase],
    which differ in the column and the axis property only. *)
Definition get_pref (col : column) (axis : t -> option (list Q) * t)
    (self : t) (unit : Z) : result np_float :=
  let (vals, self1) := axis self in
  vals <- iter vals ;;
  let similar_conditions :=
    map (fun v => index_where col v (stimulus_conditions self1)) vals in
  let (index, self2) := axis self1 in
  index <- iter index ;;
  data <- mapM (mean_response self2 unit) similar_conditions ;;
  idxmax (combine index data).

Definition _get_pref_sf : t -> Z -> result np_float := get_pref SF sfvals.
Definition _get_pref_ori : t -> Z -> result np_float := get_pref Ori orivals.
Definition _get_pref_phase : t -> Z -> result np_float :=
  get_pref Phase phasevals.

(** The preferred-value search of a dimension. *)
Definition preferred_value (a : axis_name) : t -> Z -> result np_float :=
  match a with
  | OriAxis => _get_pref_ori
  | SfAxis => _get_pref_sf
  | PhaseAxis => _get_pref_phase
  end.

Section Osi.

(** External numerics of the selectivity index. *)
Variable np_pi : Q.
Variable np_cos np_sin np_sqrt : Q -> Q.

(** Modelled from the spec: [deg2rad] of stimulus_analysis.py, which is not
    part of the sources at hand; section 4.3 step 3 converts each orientation
    from degrees to radians. *)
Definition deg2rad (degrees : list Q) : list Q :=
  map (fun d => d * np_pi / 180) degrees.

Definition is_zero (r : option Q) : bool :=
  match r with Some q => Qeq_bool q 0 | None => false end.

(** Modelled from the spec: [osi] of stimulus_analysis.py, which is not part
    of the sources at hand.  Section 4.3 step 4 and its edge case: the
    magnitude of the response-weighted vector sum over the sum of the
    responses, and an explicit undefined-index failure when all responses
    are zero.  A NaN response makes the index NaN. *)
Definition osi (orivals_rad : list Q) (tuning : list (option Q))
  : result np_float :=
  if forallb is_zero tuning then Raise UndefinedIndexError
  else if existsb (fun r => match r with None => true | _ => false end) tuning
  then Ok NaN
  else
    let rs := dropna tuning in
    let re := Qsum (map (fun p => snd p * np_cos (fst p)) (combine orivals_rad rs)) in
    let im := Qsum (map (fun p => snd p * np_sin (fst p)) (combine orivals_rad rs)) in
    Ok (fdiv (Fin (np_sqrt (re * re + im * im))) (Fin (Qsum rs))).

(** [stimulus_conditions.loc[label][col]] for one label of the index. *)
Definition condition_cell (col : column) (tbl : list condition) (label : Z)
  : result (option Q) :=
  match find (fun c => (condition_id c =? label)%Z) tbl with
  | Some c => Ok (col c)
  | None => Raise KeyError
  end.

(** Lines 253-257: the statistics of the unit for the conditions that match
    the preferred spatial frequency and phase. *)
Definition selected_responses (self : t) (unit : Z)
    (pref_sf pref_phase : np_float) : result frame :=
  let condition_inds :=
    map condition_id
        (filter (fun c => cell_eq (SF c) pref_sf && cell_eq (Phase c) pref_phase)
                (stimulus_conditions self)) in
  rows <- loc_unit (conditionwise_statistics self) unit ;;
  loc_labels policy rows condition_inds.

Definition _get_osi (self : t) (unit : Z) (pref_sf pref_phase : np_float)
  : result np_float :=
  let (vals, self1) := orivals self in
  vals <- iter vals ;;
  let orivals_rad := deg2rad vals in
  df <- selected_responses self1 unit pref_sf pref_phase ;;
  df <- mapM (fun row =>
                ori <- condition_cell Ori (stimulus_conditions self1) (fst row) ;;
                Ok (ori, snd row)) df ;;
  df <- sort_values df ;;
  let tuning := map snd df in
  osi orivals_rad tuning.

(** The tuning columns of the [metrics] table, in the order the source fills
    them: one list comprehension over the unit ids per column, so the first
    exception aborts the whole table.  The remaining columns come from
    methods of the parent class and are left out. *)
Record metrics_row : Type := {
  pref_sf_sg : np_float;
  pref_ori_sg : np_float;
  pref_phase_sg : np_float;
  g_osi_sg : np_float
}.

Definition metrics (self : t) : result (list (Z * metrics_row)) :=
  let units := unit_ids self in
  pref_sf <- mapM (_get_pref_sf self) units ;;
  pref_ori <- mapM (_get_pref_ori self) units ;;
  pref_phase <- mapM (_get_pref_phase self) units ;;
  let df := combine units (combine pref_sf (combine pref_ori pref_phase)) in
  g_osi <- mapM (fun r => _get_osi self (fst r) (fst (snd r))
                                   (snd (snd (snd r)))) df ;;
  Ok (map (fun rg =>
             let '(u, (s, (o, p)), g) := rg in
             (u, {| pref_sf_sg := s; pref_ori_sg := o;
                    pref_phase_sg := p; g_osi_sg := g |}))
          (combine df g_osi)).

End Osi.
End Methods.

(** The cached attribute and the property of each dimension. *)
Definition axis_attr (a : axis_name) : t -> option (list Q) :=
  match a with
  | OriAxis => _orivals
  | SfAxis => _sfvals
  | PhaseAxis => _phasevals
  end.

Definition axis_property (a : axis_name) : t -> option (list Q) * t :=
  match a with
  | OriAxis => orivals
  | SfAxis => sfvals
  | PhaseAxis => phasevals
  end.

(** [stimulus_conditions[stimulus_conditions[self._col_sf] == 'null'].index],
    the ids of the blank conditions. *)
Definition null_condition (self : t) : list Z :=
  map condition_id
      (filter (fun c => match SF c with None => true | Some _ => false end)
              (stimulus_conditions self)).

End StaticGratings.

(** ** The module-level tuning functions *)

Module Tuning.

Section Numerics.

(** External numerics: np.exp and np.power on finite arguments. *)
Variable np_exp : Q -> Q.
Variable np_power : Q -> Q -> Q.

Definition popt : Type := (Q * Q * Q)%type.

(** scipy.optimize.curve_fit(f, xdata, ydata, p0=.., maxfev=..): the fitted
    parameters, or the exception it raises. *)
Variable curve_fit :
  (Q -> Q -> Q -> Q -> Q) -> list Q -> list Q -> popt -> nat -> result popt.

Definition gauss_function (x a x0 sigma : Q) : Q :=
  a * np_exp (- ((x - x0) * (x - x0)) / (2 * (sigma * sigma))).

Definition exp_function (x a b c : Q) : Q :=
  a * np_exp (- b * x) + c.

(** The four values that [fit_sf_tuning] returns, as local variables. *)
Record locals : Type := {
  fit_sf_ind : np_float;
  fit_sf : np_float;
  sf_low_cutoff : np_float;
  sf_high_cutoff : np_float
}.

(** Statements: they read and assign the locals and may raise; the
    assignments made before an exception stay. *)
Definition stmt (A : Type) : Type := locals -> result A * locals.

Definition ret {A} (a : A) : stmt A := fun s => (Ok a, s).

Definition seq_bind {A B} (m : stmt A) (k : A -> stmt B) : stmt B :=
  fun s => match m s with
           | (Ok a, s') => k a s'
           | (Raise e, s') => (Raise e, s')
           end.

Definition lift {A} (r : result A) : stmt A := fun s => (r, s).

Definition skip : stmt unit := ret tt.

Definition set_fit_sf_ind (v : np_float) : stmt unit :=
  fun s => (Ok tt, {| fit_sf_ind := v; fit_sf := fit_sf s;
                      sf_low_cutoff := sf_low_cutoff s;
                      sf_high_cutoff := sf_high_cutoff s |}).

Definition set_fit_sf (v : np_float) : stmt unit :=
  fun s => (Ok tt, {| fit_sf_ind := fit_sf_ind s; fit_sf := v;
                      sf_low_cutoff := sf_low_cutoff s;
                      sf_high_cutoff := sf_high_cutoff s |}).

Definition set_sf_low_cutoff (v : np_float) : stmt unit :=
  fun s => (Ok tt, {| fit_sf_ind := fit_sf_ind s; fit_sf := fit_sf s;
                      sf_low_cutoff := v;
                      sf_high_cutoff := sf_high_cutoff s |}).

Definition set_sf_high_cutoff (v : np_float) : stmt unit :=
  fun s => (Ok tt, {| fit_sf_ind := fit_sf_ind s; fit_sf := fit_sf s;
                      sf_low_cutoff := sf_low_cutoff s;
                      sf_high_cutoff := v |}).

(** [try: body / except Exception: pass] *)
Definition try_except_pass (body : stmt unit) : stmt unit :=
  fun s => (Ok tt, snd (body s)).

Notation "x <~ m ; k" := (seq_bind m (fun x => k))
  (at level 61, m at next level, right associativity).
Notation "m ;;; k" := (seq_bind m (fun _ => k))
  (at level 61, right associativity).

(** [np.arange(0., 4.1, 0.1)] *)
Definition dense_grid : list Q := arange 0 (41 # 10) (1 # 10).

(** The i-th sample of [np.arange(0., 4.1, 0.1)]. *)
Definition grid_point (i : nat) : Q := 0 + inject_Z (Z.of_nat i) * (1 # 10).

(** [np.abs(sf_prediction - (sf_prediction.max()/2.))] *)
Definition half_max_distance (sf_prediction : list Q) : result (list Q) :=
  m <- amax sf_prediction ;;
  Ok (map (fun y => Qabs (y - m / 2)) sf_prediction).

(** [np.abs(..)[:sf_prediction.argmax()].argmin()] *)
Definition low_cut (sf_prediction : list Q) : result nat :=
  d <- half_max_distance sf_prediction ;;
  peak <- argmax sf_prediction ;;
  argmin (firstn peak d).

(** [np.abs(..)[sf_prediction.argmax():].argmin() + sf_prediction.argmax()] *)
Definition high_cut (sf_prediction : list Q) : result nat :=
  d <- half_max_distance sf_prediction ;;
  peak <- argmax sf_prediction ;;
  i <- argmin (skipn peak d) ;;
  peak' <- argmax sf_prediction ;;
  Ok (i + peak')%nat.

(** [0.02*np.power(2, x)] *)
Definition sf_of_index (x : Q) : Q := (2 # 100) * np_power 2 x.

(** Lines 285-286: the Gaussian fit, seeded with the largest response, the
    preferred index and a width of 1. *)
Definition gauss_fit (sf_tuning_responses sf_values : list Q)
    (pref_sf_index : Z) : result popt :=
  top <- amax sf_tuning_responses ;;
  curve_fit gauss_function (arange_n (length sf_values)) sf_tuning_responses
            (top, inject_Z pref_sf_index, 1) 2000.

(** Lines 305-306: the exponential fit. *)
Definition exp_fit (sf_tuning_responses sf_values : list Q) : result popt :=
  top <- amax sf_tuning_responses ;;
  bottom <- amin sf_tuning_responses ;;
  curve_fit exp_function (arange_n (length sf_values)) sf_tuning_responses
            (top, 2, bottom) 2000.

(** [gauss_function(np.arange(0., 4.1, 0.1), *popt)] *)
Definition gauss_prediction (fit : popt) : list Q :=
  let '(a, x0, sigma) := fit in
  map (fun x => gauss_function x a x0 sigma) dense_grid.

(** [exp_function(np.arange(0., 4.1, 0.1), *popt)] *)
Definition exp_prediction (fit : popt) : list Q :=
  let '(a, b, c) := fit in
  map (fun x => exp_function x a b c) dense_grid.

(** Lines 284-297: the body of the try of the interior branch. *)
Definition interior_body (sf_tuning_responses sf_values : list Q)
    (pref_sf_index : Z) : stmt unit :=
  fit <~ lift (gauss_fit sf_tuning_responses sf_values pref_sf_index) ;
  let sf_prediction := gauss_prediction fit in
  set_fit_sf_ind (Fin (snd (fst fit))) ;;;
  set_fit_sf (Fin (sf_of_index (snd (fst fit)))) ;;;
  low_cut_ind <~ lift (low_cut sf_prediction) ;
  high_cut_ind <~ lift (high_cut sf_prediction) ;
  if (0 <? low_cut_ind)%nat then
    low_cutoff <~ lift (getitem dense_grid (Z.of_nat low_cut_ind)) ;
    set_sf_low_cutoff (Fin (sf_of_index low_cutoff))
  else if (high_cut_ind <? 4)%nat then
    high_cutoff <~ lift (getitem dense_grid (Z.of_nat high_cut_ind)) ;
    set_sf_high_cutoff (Fin (sf_of_index high_cutoff))
  else skip.

(** Lines 305-315: the body of the try of the boundary branch. *)
Definition boundary_body (sf_tuning_responses sf_values : list Q)
    (pref_sf_index : Z) : stmt unit :=
  fit <~ lift (exp_fit sf_tuning_responses sf_values) ;
  let sf_prediction := exp_prediction fit in
  if (pref_sf_index =? 0)%Z then
    high_cut_ind <~ lift (high_cut sf_prediction) ;
    high_cutoff <~ lift (getitem dense_grid (Z.of_nat high_cut_ind)) ;
    set_sf_high_cutoff (Fin (sf_of_index high_cutoff))
  else
    low_cut_ind <~ lift (low_cut sf_prediction) ;
    low_cutoff <~ lift (getitem dense_grid (Z.of_nat low_cut_ind)) ;
    set_sf_low_cutoff (Fin (sf_of_index low_cutoff)).

(** [pref_sf_index in range(1, len(sf_values)-1)] *)
Definition is_interior (sf_values : list Q) (pref_sf_index : Z) : bool :=
  ((1 <=? pref_sf_index) && (pref_sf_index <? len sf_values - 1))%Z.

Definition fit_sf_tuning_body (sf_tuning_responses sf_values : list Q)
    (pref_sf_index : Z) : stmt unit :=
  if is_interior sf_values pref_sf_index then
    try_except_pass (interior_body sf_tuning_responses sf_values pref_sf_index)
  else
    set_fit_sf_ind (Fin (inject_Z pref_sf_index)) ;;;
    v <~ lift (getitem sf_values pref_sf_index) ;
    set_fit_sf (Fin v) ;;;
    try_except_pass (boundary_body sf_tuning_responses sf_values pref_sf_index).

Definition all_nan : locals :=
  {| fit_sf_ind := NaN; fit_sf := NaN;
     sf_low_cutoff := NaN; sf_high_cutoff := NaN |}.

(** The function: the four locals start as NaN and are returned as a tuple,
    unless a statement outside the try raises. *)
Definition fit_sf_tuning (sf_tuning_responses sf_values : list Q)
    (pref_sf_index : Z) : result locals :=
  match fit_sf_tuning_body sf_tuning_responses sf_values pref_sf_index all_nan with
  | (Ok _, s) => Ok s
  | (Raise e, _) => Raise e
  end.

End Numerics.

Section Sfdi.

(** The float64 rounding, and the numpy routines whose order of summation
    and whose rounding are numpy's own: np.sum of a float array, np.sqrt of
    a finite non-negative float. *)
Variable rnd : Q -> np_float.
Variable np_sum : list np_float -> np_float.
Variable np_sqrt : Q -> np_float.

(** [np.sqrt] on a float64 scalar: NaN below zero, no exception. *)
Definition fsqrt (x : np_float) : np_float :=
  match x with
  | Fin q => if Qlt_bool q 0 then NaN else np_sqrt q
  | PInf => PInf
  | NInf => NaN
  | NaN => NaN
  end.

(** [a.mean()] of a float array: the sum over the count, NaN for the empty
    array. *)
Definition array_mean (a : list Q) : np_float :=
  rdiv rnd (np_sum (map Fin a)) (Fin (inject_Z (len a))).

(** [get_sfdi(sf_tuning_responses, mean_sweeps_trials, bias)]; the default
    of [bias] is 5.  The arrays hold finite floats. *)
Definition get_sfdi (sf_tuning_responses mean_sweeps_trials : list Q)
    (bias : Z) : result np_float :=
  let trial_mean := array_mean mean_sweeps_trials in
  let sse_part :=
    fsqrt (rdiv rnd
             (np_sum (map (fun x => let d := rsub rnd (Fin x) trial_mean in
                                    rmul rnd d d) mean_sweeps_trials))
             (Fin (inject_Z (len mean_sweeps_trials - bias)))) in
  range <- ptp rnd sf_tuning_responses ;;
  range' <- ptp rnd sf_tuning_responses ;;
  Ok (rdiv rnd range (radd rnd range' (rmul rnd (Fin 2) sse_part))).

Definition default_bias : Z := 5.

End Sfdi.

End Tuning.

(** ** IEEE double precision

    The rounding of binary64 (to nearest, ties to even, with subnormal
    numbers and overflow to infinity) on the rationals, its square root, and
    a summation from left to right. *)

Module Binary64.

(** The integer nearest to [n/d], ties to even. *)
Definition round_half_even (n d : Z) : Z :=
  let m := (n / d)%Z in
  let r := (n mod d)%Z in
  if (2 * r <? d)%Z then m
  else if (d <? 2 * r)%Z then (m + 1)%Z
  else if Z.even m then m else (m + 1)%Z.

(** [a / 2^e] as a fraction of integers. *)
Definition scaled (n d e : Z) : Z * Z :=
  if (0 <=? e)%Z then (n, (d * 2 ^ e)%Z) else ((n * 2 ^ (- e))%Z, d).

(** The exponent of the unit in the last place of [n/d > 0]: the 53-bit
    significand lies in [2^52, 2^53), or below for subnormal numbers. *)
Definition ulp_exponent (n d : Z) : Z :=
  let e := (Z.log2 n - Z.log2 d - 52)%Z in
  let (sn, sd) := scaled n d e in
  let e := if (sn / sd <? 2 ^ 52)%Z then (e - 1)%Z else e in
  Z.max e (-1074).

Definition round_positive (negative : bool) (n d : Z) : np_float :=
  let e := ulp_exponent n d in
  let (sn, sd) := scaled n d e in
  let m := round_half_even sn sd in
  if ((971 <? e) || ((e =? 971) && (2 ^ 53 <=? m)))%Z
  then (if negative then NInf else PInf)
  else
    let v := if (0 <=? e)%Z then inject_Z (m * 2 ^ e)
             else Qmake m (Z.to_pos (2 ^ (- e))) in
    Fin (Qred (if negative then - v else v)).

Definition round_reduced (q : Q) : np_float :=
  match Qnum q with
  | Z0 => Fin 0
  | Zpos n => round_positive false (Zpos n) (Zpos (Qden q))
  | Zneg n => round_positive true (Zpos n) (Zpos (Qden q))
  end.

Definition binary64 (q : Q) : np_float := round_reduced (Qred q).

(** The float nearest to a decimal constant of the source or of a test. *)
Definition double (q : Q) : Q :=
  match binary64 q with
  | Fin r => r
  | _ => 0
  end.

(** The correctly rounded square root of a non-negative rational: the
    integer square root of the argument scaled by a power of 4, with a
    sticky half when it is not exact, then rounded. *)
Definition binary64_sqrt (q : Q) : np_float :=
  let q := Qred q in
  match Qnum q with
  | Zpos n =>
      let n := Zpos n in
      let d := Zpos (Qden q) in
      let t := Z.max 0 ((114 + Z.log2 d - Z.log2 n) / 2 + 1) in
      let s := Z.sqrt (n * 4 ^ t / d) in
      let exact := (s * s * d =? n * 4 ^ t)%Z in
      binary64 (Qmake (2 * s + (if exact then 0 else 1))
                      (Z.to_pos (2 ^ (t + 1))))
  | _ => Fin 0
  end.

(** A sum from left to right, rounded at each step. *)
Definition sequential_sum (a : list np_float) : np_float :=
  fold_left (radd binary64) a (Fin 0).

End Binary64.

(** ** Concrete numerics for running the model

    Rational stand-ins for the external numerics, used where a definition is
    evaluated on a concrete input. *)

Module Samples.

(** Truncated Taylor series of exp in Horner form:
    1 + x/k (1 + x/(k+1) (...)). *)
Fixpoint exp_horner (fuel : nat) (k : positive) (x : Q) : Q :=
  match fuel with
  | O => 1
  | S fuel' => Qred (1 + (x / inject_Z (Zpos k)) * exp_horner fuel' (Pos.succ k) x)
  end.

Definition sample_exp (x : Q) : Q := exp_horner 40 1 x.

(** 2^x as exp(x ln 2); the source raises no other base. *)
Definition sample_power (base x : Q) : Q :=
  sample_exp (x * (6931471805599453 # 10000000000000000)).

(** Square root to 15 decimal places (0 below zero). *)
Definition sample_sqrt (q : Q) : Q :=
  Z.sqrt (Qnum q * 10 ^ 30 / Zpos (Qden q)) # (10 ^ 15).

Definition sample_pi : Q := 3141592653589793 # 1000000000000000.

(** Truncated Taylor series of cos and sin. *)
Fixpoint trig_horner (fuel : nat) (k : positive) (x : Q) : Q :=
  match fuel with
  | O => 1
  | S fuel' =>
      Qred (1 - (x * x / inject_Z (Zpos (k * Pos.succ k)))
                * trig_horner fuel' (Pos.succ (Pos.succ k)) x)
  end.

Definition sample_cos (x : Q) : Q := trig_horner 20 1 x.
Definition sample_sin (x : Q) : Q := x * trig_horner 20 2 x.

(** A curve_fit that returns given parameters for the Gaussian and the
    exponential model alike. *)
Definition fit_returning (fit : Tuning.popt)
    (f : Q -> Q -> Q -> Q -> Q) (xdata ydata : list Q) (p0 : Tuning.popt)
    (maxfev : nat) : result Tuning.popt := Ok fit.

(** A curve_fit that does not converge. *)
Definition fit_failing
    (f : Q -> Q -> Q -> Q -> Q) (xdata ydata : list Q) (p0 : Tuning.popt)
    (maxfev : nat) : result Tuning.popt := Raise RuntimeError.

(** A stimulus table with two spatial frequencies and two orientations at
    one phase, and a blank condition. *)
Definition grid_conditions : list condition :=
  [ {| condition_id := 0; Ori := Some 0; SF := Some (2 # 100); Phase := Some 0 |};
    {| condition_id := 1; Ori := Some 90; SF := Some (2 # 100); Phase := Some 0 |};
    {| condition_id := 2; Ori := Some 0; SF := Some (4 # 100); Phase := Some 0 |};
    {| condition_id := 3; Ori := Some 90; SF := Some (4 # 100); Phase := Some 0 |};
    {| condition_id := 4; Ori := None; SF := None; Phase := None |} ].

(** Unit 7 responds to every condition; unit 8 was recorded for the two
    conditions of the lower spatial frequency only, and did not respond;
    unit 9 has no statistic at all. *)
Definition grid_statistics : list stat_row :=
  [ {| unit_id := 7; stimulus_condition_id := 0; spike_mean := 3 |};
    {| unit_id := 7; stimulus_condition_id := 1; spike_mean := 1 |};
    {| unit_id := 7; stimulus_condition_id := 2; spike_mean := 5 |};
    {| unit_id := 7; stimulus_condition_id := 3; spike_mean := 2 |};
    {| unit_id := 7; stimulus_condition_id := 4; spike_mean := 0 |};
    {| unit_id := 8; stimulus_condition_id := 0; spike_mean := 0 |};
    {| unit_id := 8; stimulus_condition_id := 1; spike_mean := 0 |} ].

Definition grid_session : StaticGratings.t :=
  StaticGratings.__init__ grid_conditions grid_statistics [7; 8; 9]%Z.

(** The same session with a stimulus table in which the second condition of
    the lower spatial frequency carries the orientation 'null'. *)
Definition mixed_conditions : list condition :=
  [ {| condition_id := 0; Ori := Some 0; SF := Some (2 # 100); Phase := Some 0 |};
    {| condition_id := 1; Ori := None; SF := Some (2 # 100); Phase := Some 0 |};
    {| condition_id := 2; Ori := Some 0; SF := Some (4 # 100); Phase := Some 0 |};
    {| condition_id := 3; Ori := Some 90; SF := Some (4 # 100); Phase := Some 0 |};
    {| condition_id := 4; Ori := None; SF := None; Phase := None |} ].

Definition mixed_session : StaticGratings.t :=
  StaticGratings.__init__ mixed_conditions grid_statistics [7; 8; 9]%Z.

(** The Gaussian a = 1, x0 = 2, sigma = 1/2. *)
Definition narrow_gaussian : Tuning.popt := (1, 2, 1 # 2).

(** Five spatial frequencies and the responses that this Gaussian gives on
    their indices: a tuning curve that peaks at index 2. *)
Definition five_frequencies : list Q :=
  [2 # 100; 4 # 100; 8 # 100; 16 # 100; 32 # 100].
Definition peaked_responses : list Q :=
  map (fun x => Tuning.gauss_function sample_exp x 1 2 (1 # 2)) (arange_n 5).



End Samples.

(** ** The neuron simulation driver

    Source: allen_wrench/model/GLIF/simulate_neuron.py.  The data set, the
    neuron model and the configuration are collaborators outside the
    sources at hand: their operations are parameters, and so is the type of
    the exceptions they raise. *)

Module SimulateNeuron.

Section Collaborators.

Variable exc : Type.     (* exceptions of the collaborators *)
Variable trace : Type.   (* an array: a stimulus, a voltage, ... *)
Variable value : Type.   (* an initial condition of the optimizer *)
Variable model : Type.   (* the neuron apart from its time step *)
Variable disk : Type.    (* the contents of the data files *)

Inductive outcome (A : Type) : Type :=
| Done (a : A)
| Raised (e : exc).
Arguments Done {A} a.
Arguments Raised {A} e.

(** The neuron object: the attribute [dt] and the rest. *)
Record neuron_t : Type := { dt : np_float; model_state : model }.

(** What [get_sweep] returns: data['sampling_rate'], data['stimulus']. *)
Record sweep_data : Type := { sampling_rate : Q; stimulus : trace }.

(** The eight arrays that [neuron.run] returns. *)
Record run_output : Type := {
  voltage : trace;
  threshold : trace;
  AScurrent_matrix : trace;
  grid_spike_time : trace;
  interpolated_spike_time : trace;
  grid_spike_index : trace;
  interpolated_spike_voltage : trace;
  interpolated_spike_threshold : trace
}.

(** [EphysDataSet(file_name).get_sweep(sweep_number)]; reading leaves the
    files as they are. *)
Variable get_sweep : disk -> String.string -> Z -> outcome sweep_data.

(** [EphysDataSet(file_name).set_sweep(sweep_number, stimulus=.., response=..)] *)
Variable set_sweep :
  disk -> String.string -> Z -> option trace -> option trace ->
  outcome unit * disk.

(** [neuron.run(init_voltage, init_threshold, init_AScurrents, stimulus)],
    which may change the neuron. *)
Variable run :
  neuron_t -> value -> value -> value -> trace ->
  outcome run_output * neuron_t.

(** [1.0 / rate] in the arithmetic of the value that get_sweep returns. *)
Variable true_divide : Q -> Q -> outcome np_float.

(** The KeyError of a dictionary lookup. *)
Variable key_error : String.string -> exc.

Inductive level : Type := DEBUG | WARNING.

(** The messages handed to [logging]; elapsed times are not modelled. *)
Inductive message : Type :=
| Simulating
| SimulationTime
| LoadingSweep (sweep_number : Z)
| LoadTime
| WritingSweep
| WriteTime
| FailedToLoad (e : exc)
| TotalSweepTime
| TotalElapsedTime.

(** What the functions act on: the files, the neuron object that they
    share, and the calls made to [logging]. *)
Record state : Type := {
  files : disk;
  neuron : neuron_t;
  log : list (level * message)
}.

Definition M (A : Type) : Type := state -> outcome A * state.

Definition ret {A} (a : A) : M A := fun st => (Done a, st).

Definition raise {A} (e : exc) : M A := fun st => (Raised e, st).

Definition bind {A B} (m : M A) (k : A -> M B) : M B :=
  fun st => match m st with
            | (Done a, st') => k a st'
            | (Raised e, st') => (Raised e, st')
            end.

(** [try: m / except Exception, e: handler] *)
Definition try_except {A} (m : M A) (handler : exc -> M A) : M A :=
  fun st => match m st with
            | (Done a, st') => (Done a, st')
            | (Raised e, st') => handler e st'
            end.

Definition lift {A} (r : outcome A) : M A := fun st => (r, st).

Definition logging (l : level) (msg : message) : M unit :=
  fun st => (Done tt, {| files := files st; neuron := neuron st;
                         log := log st ++ [(l, msg)] |}).

Notation "x <~ m ; k" := (bind m (fun x => k))
  (at level 61, m at next level, right associativity).
Notation "m ;;; k" := (bind m (fun _ => k))
  (at level 61, right associativity).

Definition neuron_run (init_voltage init_threshold init_AScurrents : value)
    (stim : trace) : M run_output :=
  fun st => let (r, n) := run (neuron st) init_voltage init_threshold
                              init_AScurrents stim in
            (r, {| files := files st; neuron := n; log := log st |}).

Definition set_dt (d : np_float) : M unit :=
  fun st => (Done tt,
             {| files := files st;
                neuron := {| dt := d;
                             model_state := model_state (neuron st) |};
                log := log st |}).

Definition simulate_sweep (stim : trace)
    (init_voltage init_threshold init_AScurrents : value) : M trace :=
  logging DEBUG Simulating ;;;
  out <~ neuron_run init_voltage init_threshold init_AScurrents stim ;
  logging DEBUG SimulationTime ;;;
  ret (voltage out).

Definition load_sweep (file_name : String.string) (sweep_number : Z)
  : M sweep_data :=
  logging DEBUG (LoadingSweep sweep_number) ;;;
  data <~ (fun st => (get_sweep (files st) file_name sweep_number, st)) ;
  logging DEBUG LoadTime ;;;
  ret data.

Definition write_sweep_response (file_name : String.string)
    (sweep_number : Z) (response : trace) : M unit :=
  logging DEBUG WritingSweep ;;;
  (fun st => let (r, d) := set_sweep (files st) file_name sweep_number
                                     None (Some response) in
             (r, {| files := d; neuron := neuron st; log := log st |})) ;;;
  logging DEBUG WriteTime.

Definition simulate_sweep_from_file (sweep_number : Z)
    (input_file_name output_file_name : String.string)
    (init_voltage init_threshold init_AScurrents : value) : M unit :=
  data <~ try_except (load_sweep input_file_name sweep_number)
                     (fun e => logging WARNING (FailedToLoad e) ;;; raise e) ;
  d <~ lift (true_divide 1 (sampling_rate data)) ;
  set_dt d ;;;
  response <~ simulate_sweep (stimulus data) init_voltage init_threshold
                             init_AScurrents ;
  write_sweep_response output_file_name sweep_number response ;;;
  logging DEBUG TotalSweepTime.

(** A for loop whose body may raise. *)
Fixpoint for_each {A} (body : A -> M unit) (l : list A) : M unit :=
  match l with
  | [] => ret tt
  | a :: t => body a ;;; for_each body t
  end.

(** The command line: the output file and the optional stimulus name. *)
Record args_t : Type := {
  output_file : String.string;
  stimulus_name : option String.string
}.

(** The configuration: the entries 'sweeps' and 'filename' of data_config,
    its entries by stimulus name, and the initial conditions of
    optimizer_config. *)
Variable sweep_properties : Type.

Record config_t : Type := {
  sweeps : list sweep_properties;
  filename : String.string;
  data_config : String.string -> option (list Z);
  init_voltage : value;
  init_threshold : value;
  init_AScurrents : value
}.

(** [range(n)] *)
Definition range (n : nat) : list Z := map Z.of_nat (seq 0 n).

(** Lines 91-94: the sweeps to simulate. *)
Definition sweep_numbers (args : args_t) (config : config_t)
  : outcome (list Z) :=
  match stimulus_name args with
  | None => Done (range (length (sweeps config)))
  | Some name =>
      match data_config config name with
      | Some numbers => Done numbers
      | None => Raised (key_error name)
      end
  end.

(** Lines 91-108 of [main], for parsed arguments and a configuration that
    was read; the neuron of the state is the one that was set up. *)
Definition main (args : args_t) (config : config_t) : M unit :=
  numbers <~ lift (sweep_numbers args config) ;
  let input_file_name := filename config in
  for_each (fun sweep_number =>
              simulate_sweep_from_file sweep_number input_file_name
                (output_file args) (init_voltage config)
                (init_threshold config) (init_AScurrents config))
           numbers ;;;
  logging DEBUG TotalElapsedTime.

(** The sweep numbers whose loading was announced in a log. *)
Definition loaded_sweeps (l : list (level * message)) : list Z :=
  flat_map (fun r => match snd r with
                     | LoadingSweep n => [n]
                     | _ => []
                     end) l.

End Collaborators.

Arguments Done {exc A} a.
Arguments Raised {exc A} e.
Arguments Simulating {exc}.
Arguments SimulationTime {exc}.
Arguments LoadingSweep {exc} sweep_number.
Arguments LoadTime {exc}.
Arguments WritingSweep {exc}.
Arguments WriteTime {exc}.
Arguments FailedToLoad {exc} e.
Arguments TotalSweepTime {exc}.
Arguments TotalElapsedTime {exc}.
Arguments dt {model} n.
Arguments model_state {model} n.
Arguments sampling_rate {trace} s.
Arguments stimulus {trace} s.
Arguments voltage {trace} r.
Arguments files {exc model disk} s.
Arguments neuron {exc model disk} s.
Arguments log {exc model disk} s.
Arguments sweeps {value sweep_properties} c.
Arguments filename {value sweep_properties} c.
Arguments data_config {value sweep_properties} c.
Arguments init_voltage {value sweep_properties} c.
Arguments init_threshold {value sweep_properties} c.
Arguments init_AScurrents {value sweep_properties} c.
Arguments ret {exc model disk A} a _.
Arguments raise {exc model disk A} e _.
Arguments bind {exc model disk A B} m k _.
Arguments try_except {exc model disk A} m handler _.
Arguments lift {exc model disk A} r _.
Arguments logging {exc model disk} l msg _.
Arguments neuron_run {exc trace value model disk} run
  init_voltage init_threshold init_AScurrents stim _.
Arguments set_dt {exc model disk} d _.
Arguments simulate_sweep {exc trace value model disk} run
  stim init_voltage init_threshold init_AScurrents _.
Arguments load_sweep {exc trace model disk} get_sweep file_name sweep_number _.
Arguments write_sweep_response {exc trace model disk} set_sweep
  file_name sweep_number response _.
Arguments simulate_sweep_from_file {exc trace value model disk}
  get_sweep set_sweep run true_divide sweep_number input_file_name
  output_file_name init_voltage init_threshold init_AScurrents _.
Arguments for_each {exc model disk A} body l _.
Arguments sweep_numbers {exc value} key_error {sweep_properties} args config.
Arguments main {exc trace value model disk}
  get_sweep set_sweep run true_divide key_error {sweep_properties}
  args config _.
Arguments loaded_sweeps {exc} l.

End SimulateNeuron.

(** Further concrete numerics and collaborators for running the model. *)

Module MoreSamples.

(** exp, through its reciprocal below zero, where the truncated series is
    poor. *)
Definition sample_exp_wide (x : Q) : Q :=
  if Qlt_bool x 0 then / Samples.exp_horner 40 1 (- x)
  else Samples.exp_horner 40 1 x.

(** A Gaussian that peaks at the second grid sample. *)
Definition early_gaussian : Tuning.popt := (1, 1 # 10, 1 # 20).

(** A Gaussian that peaks at the first grid sample. *)
Definition first_sample_gaussian : Tuning.popt := (1, 0, 1).

Import SimulateNeuron.

(** A data set of two sweeps in any file; a disk that records the
    responses written to it. *)
Definition sample_disk : Type := list (String.string * Z * list Q).

Definition sample_get_sweep (d : sample_disk) (file_name : String.string)
    (n : Z) : outcome Z (sweep_data (list Q)) :=
  if ((0 <=? n) && (n <? 2))%Z
  then Done {| sampling_rate := 1000; stimulus := [inject_Z n; 1] |}
  else Raised n.

Definition sample_set_sweep (d : sample_disk) (file_name : String.string)
    (n : Z) (stim response : option (list Q))
  : outcome Z unit * sample_disk :=
  (Done tt, d ++ [(file_name, n, match response with
                                 | Some r => r
                                 | None => []
                                 end)]).

(** A neuron whose voltage is the stimulus. *)
Definition sample_run (n : neuron_t unit) (v t a : Q) (stim : list Q)
  : outcome Z (run_output (list Q)) * neuron_t unit :=
  (Done {| voltage := stim; threshold := []; AScurrent_matrix := [];
           grid_spike_time := []; interpolated_spike_time := [];
           grid_spike_index := []; interpolated_spike_voltage := [];
           interpolated_spike_threshold := [] |}, n).

(** A neuron model that fails. *)
Definition failing_run (n : neuron_t unit) (v t a : Q) (stim : list Q)
  : outcome Z (run_output (list Q)) * neuron_t unit :=
  (Raised 7%Z, n).

Definition sample_divide (a b : Q) : outcome Z np_float :=
  Done (fdiv (Fin a) (Fin b)).

Definition sample_key_error (name : String.string) : Z := (-1)%Z.

Definition sample_state : state Z unit sample_disk :=
  {| files := []; neuron := {| dt := NaN; model_state := tt |}; log := [] |}.

Definition sample_config (n : nat) : config_t Q unit :=
  {| sweeps := repeat tt n;
     filename := String.EmptyString;
     data_config := fun _ => None;
     init_voltage := 0; init_threshold := 1; init_AScurrents := 0 |}.

Definition sample_args : args_t :=
  {| output_file := String.EmptyString; stimulus_name := None |}.

End MoreSamples.

(** * Properties *)

Import StaticGratings Tuning.

(** ** Dimension discovery *)

(** C2 (the code departs from the claim): after dimension discovery the
    orientation and spatial-frequency counts are the lengths of their axes
    and the phase axis is cached, but the phase count is still None, and the
    [number_phase] property returns None, before and after discovery. *)
Theorem number_phase_stays_None (conds : list condition)
    (stats : list stat_row) (units : list Z) :
  let self := _get_stim_table_stats (__init__ conds stats units) in
  (_orivals self = Some (axis_values Ori conds)
   /\ _number_ori self = Some (len (axis_values Ori conds)))
  /\ (_sfvals self = Some (axis_values SF conds)
      /\ _number_sf self = Some (len (axis_values SF conds)))
  /\ _phasevals self = Some (axis_values Phase conds)
  /\ _number_phase self = None
  /\ fst (number_phase self) = None
  /\ fst (number_phase (__init__ conds stats units)) = None.
Proof.
  cbv zeta. repeat split.
Qed.

(** ** numpy reductions *)

Lemma argmin_from_lt (l : list Q) : forall best_i best i,
  (best_i < i)%nat -> (argmin_from best_i best i l < i + length l)%nat.
Proof.
  induction l as [|x t IH]; intros best_i best i Hlt; simpl.
  - lia.
  - destruct (Qlt_bool x best).
    + specialize (IH i x (S i)). lia.
    + specialize (IH best_i best (S i)). lia.
Qed.

Lemma argmin_lt (l : list Q) (i : nat) :
  argmin l = Ok i -> (i < length l)%nat.
Proof.
  destruct l as [|x t]; simpl; intros H; inversion H; subst.
  pose proof (argmin_from_lt t 0%nat x 1%nat). lia.
Qed.

Lemma argmax_from_lt (l : list Q) : forall best_i best i,
  (best_i < i)%nat -> (argmax_from best_i best i l < i + length l)%nat.
Proof.
  induction l as [|x t IH]; intros best_i best i Hlt; simpl.
  - lia.
  - destruct (Qlt_bool best x).
    + specialize (IH i x (S i)). lia.
    + specialize (IH best_i best (S i)). lia.
Qed.

Lemma argmax_lt (l : list Q) (i : nat) :
  argmax l = Ok i -> (i < length l)%nat.
Proof.
  destruct l as [|x t]; simpl; intros H; inversion H; subst.
  pose proof (argmax_from_lt t 0%nat x 1%nat). lia.
Qed.

(** ** The dense index grid *)

Lemma dense_grid_samples : dense_grid = map grid_point (seq 0 41).
Proof. reflexivity. Qed.

Lemma getitem_dense_grid (i : nat) :
  (i < 41)%nat -> getitem dense_grid (Z.of_nat i) = Ok (grid_point i).
Proof.
  intros Hi.
  do 41 (destruct i as [|i]; [reflexivity|]).
  lia.
Qed.

(** ** fit_sf_tuning *)

Section FitProperties.

Variable np_exp : Q -> Q.
Variable np_power : Q -> Q -> Q.
Variable curve_fit :
  (Q -> Q -> Q -> Q -> Q) -> list Q -> list Q -> popt -> nat -> result popt.

Local Abbreviation fit_sf_tuning' := (fit_sf_tuning np_exp np_power curve_fit).
Local Abbreviation gauss_fit' := (gauss_fit np_exp curve_fit).
Local Abbreviation exp_fit' := (exp_fit np_exp curve_fit).
Local Abbreviation gauss_prediction' := (gauss_prediction np_exp).
Local Abbreviation exp_prediction' := (exp_prediction np_exp).
Local Abbreviation sf_of_index' := (sf_of_index np_power).

Lemma gauss_prediction_length (fit : popt) :
  length (gauss_prediction' fit) = 41%nat.
Proof.
  destruct fit as [[a x0] sigma]. unfold gauss_prediction.
  rewrite length_map. reflexivity.
Qed.

Lemma half_max_distance_length (p d : list Q) :
  half_max_distance p = Ok d -> length d = length p.
Proof.
  unfold half_max_distance. destruct (amax p); simpl; intros H; inversion H.
  apply length_map.
Qed.

Lemma low_cut_lt (p : list Q) (l : nat) :
  low_cut p = Ok l -> (l < length p)%nat.
Proof.
  unfold low_cut.
  destruct (half_max_distance p) as [d|] eqn:Hd; simpl; [|discriminate].
  destruct (argmax p) as [peak|] eqn:Hp; simpl; [|discriminate].
  intros H. apply argmin_lt in H. rewrite length_firstn in H.
  apply half_max_distance_length in Hd. lia.
Qed.

(** The interior branch after a successful fit, in full: the fit centre is
    reported; the low cutoff is reported when its sample position is
    positive; the high cutoff is reported only when the low one is not and
    its sample position is below 4. *)
Lemma interior_run (rs sf_values : list Q) (i : Z) (fit : popt) (l h : nat) :
  is_interior sf_values i = true ->
  gauss_fit' rs sf_values i = Ok fit ->
  low_cut (gauss_prediction' fit) = Ok l ->
  high_cut (gauss_prediction' fit) = Ok h ->
  fit_sf_tuning' rs sf_values i =
  Ok {| fit_sf_ind := Fin (snd (fst fit));
        fit_sf := Fin (sf_of_index' (snd (fst fit)));
        sf_low_cutoff :=
          if (0 <? l)%nat then Fin (sf_of_index' (grid_point l)) else NaN;
        sf_high_cutoff :=
          if (0 <? l)%nat then NaN
          else if (h <? 4)%nat then Fin (sf_of_index' (grid_point h))
               else NaN |}.
Proof.
  intros Hint Hfit Hl Hh.
  pose proof (low_cut_lt _ _ Hl) as Hl41.
  rewrite gauss_prediction_length in Hl41.
  unfold fit_sf_tuning, fit_sf_tuning_body. rewrite Hint.
  unfold try_except_pass, interior_body, seq_bind, lift.
  rewrite Hfit. cbn [set_fit_sf_ind set_fit_sf fst snd].
  rewrite Hl, Hh.
  destruct (0 <? l)%nat eqn:E0.
  - rewrite (getitem_dense_grid l Hl41). reflexivity.
  - destruct (h <? 4)%nat eqn:E4.
    + apply Nat.ltb_lt in E4.
      rewrite (getitem_dense_grid h) by lia. reflexivity.
    + reflexivity.
Qed.

(** C8: with a strictly interior preferred index, when the Gaussian fit
    raises (the seed cannot be computed or curve_fit fails), fit_sf_tuning
    returns normally and all four outputs are NaN. *)
Theorem gauss_fit_failure_gives_all_nan (rs sf_values : list Q) (i : Z)
    (e : exn) :
  is_interior sf_values i = true ->
  gauss_fit' rs sf_values i = Raise e ->
  fit_sf_tuning' rs sf_values i = Ok all_nan.
Proof.
  intros Hint Hfit.
  unfold fit_sf_tuning, fit_sf_tuning_body. rewrite Hint.
  unfold try_except_pass, interior_body, seq_bind, lift.
  rewrite Hfit. reflexivity.
Qed.

(** The boundary try with preferred index 0 assigns the high cutoff only. *)
Lemma boundary_body_first (rs sf_values : list Q) (s : locals) :
  let s' := snd (boundary_body np_exp np_power curve_fit rs sf_values 0 s) in
  fit_sf_ind s' = fit_sf_ind s /\ fit_sf s' = fit_sf s
  /\ sf_low_cutoff s' = sf_low_cutoff s.
Proof.
  unfold boundary_body, seq_bind, lift. cbn [Z.eqb].
  destruct (exp_fit' rs sf_values) as [fit|]; [|repeat split].
  destruct (high_cut (exp_prediction' fit)) as [h|]; [|repeat split].
  destruct (getitem dense_grid (Z.of_nat h)) as [g|]; repeat split.
Qed.

(** C7: with preferred index 0 on a non-empty axis, fit_sf_tuning returns
    the preferred index 0, the first raw axis value as preferred value, and
    an undefined low cutoff, whatever the curve fit does. *)
Theorem boundary_first_index (rs : list Q) (v0 : Q) (rest : list Q) :
  exists s, fit_sf_tuning np_exp np_power curve_fit rs (v0 :: rest) 0 = Ok s
    /\ fit_sf_ind s = Fin 0 /\ fit_sf s = Fin v0 /\ sf_low_cutoff s = NaN.
Proof.
  unfold fit_sf_tuning, fit_sf_tuning_body.
  replace (is_interior (v0 :: rest) 0) with false by reflexivity.
  unfold seq_bind at 1 2 3. unfold set_fit_sf_ind at 1.
  assert (Hget : getitem (v0 :: rest) 0 = Ok v0).
  { unfold getitem, len. cbn [Z.ltb Z.compare].
    replace (0 <=? 0)%Z with true by reflexivity.
    replace (0 <? Z.of_nat (length (v0 :: rest)))%Z with true.
    - reflexivity.
    - symmetry. apply Z.ltb_lt. simpl length. lia. }
  unfold lift at 1. rewrite Hget.
  unfold set_fit_sf at 1. unfold try_except_pass.
  match goal with
  | |- context [boundary_body _ _ _ rs (v0 :: rest) 0 ?s0] =>
      destruct (boundary_body_first rs (v0 :: rest) s0) as (H1 & H2 & H3)
  end.
  eexists. split; [reflexivity|].
  cbn [snd fst] in *. rewrite H1, H2, H3. repeat split.
Qed.

(** C1 (the code departs from the claim): in the interior branch after a
    successful fit, as soon as the low cutoff is reported the high cutoff is
    NaN, also when the high half-max crossing lies strictly inside the
    sampled range. *)
Theorem interior_low_cutoff_hides_high (rs sf_values : list Q) (i : Z)
    (fit : popt) (l h : nat) :
  is_interior sf_values i = true ->
  gauss_fit' rs sf_values i = Ok fit ->
  low_cut (gauss_prediction' fit) = Ok l ->
  high_cut (gauss_prediction' fit) = Ok h ->
  (0 < l)%nat -> (h < 40)%nat ->
  exists s, fit_sf_tuning' rs sf_values i = Ok s
    /\ sf_low_cutoff s = Fin (sf_of_index' (grid_point l))
    /\ sf_high_cutoff s = NaN.
Proof.
  intros Hint Hfit Hl Hh Hl0 Hh40.
  rewrite (interior_run rs sf_values i fit l h Hint Hfit Hl Hh).
  apply Nat.ltb_lt in Hl0. rewrite Hl0.
  eexists. repeat split.
Qed.






End FitProperties.

(** ** get_sfdi *)

Lemma Qeq_bool_false (a b : Q) : ~ a == b -> Qeq_bool a b = false.
Proof.
  intros H. destruct (Qeq_bool a b) eqn:E; [|reflexivity].
  apply Qeq_bool_iff in E. contradiction.
Qed.

Lemma Qeq_bool_true (a b : Q) : a == b -> Qeq_bool a b = true.
Proof. apply Qeq_bool_iff. Qed.

Lemma Qlt_bool_iff (a b : Q) : Qlt_bool a b = true <-> a < b.
Proof.
  unfold Qlt_bool. rewrite negb_true_iff. split.
  - intros H. apply Qnot_le_lt. intros Hle.
    apply Qle_bool_iff in Hle. congruence.
  - intros H. destruct (Qle_bool b a) eqn:E; [|reflexivity].
    apply Qle_bool_iff in E. exfalso. apply (Qlt_not_le _ _ H E).
Qed.

Lemma Qlt_bool_false (a b : Q) : Qlt_bool a b = false <-> b <= a.
Proof.
  unfold Qlt_bool. rewrite negb_false_iff. apply Qle_bool_iff.
Qed.

Lemma inject_Z_nonzero (k : Z) : k <> 0%Z -> ~ inject_Z k == 0.
Proof. unfold Qeq. simpl. lia. Qed.

Section SfdiProperties.

Variable rnd : Q -> np_float.
Variable np_sum : list np_float -> np_float.
Variable np_sqrt : Q -> np_float.

Lemma ptp_nonempty (l : list Q) :
  l <> [] -> exists r, ptp rnd l = Ok r.
Proof.
  destruct l as [|x t]; [contradiction|]. intros _.
  unfold ptp, amax, amin. simpl. eexists. reflexivity.
Qed.

(** A float divided by the zero count is NaN or an infinity. *)
Lemma rdiv_by_zero (x : np_float) :
  rdiv rnd x (Fin (inject_Z 0)) = NaN
  \/ rdiv rnd x (Fin (inject_Z 0)) = PInf
  \/ rdiv rnd x (Fin (inject_Z 0)) = NInf.
Proof.
  destruct x as [a| | |]; cbn.
  - destruct (Qeq_bool a 0); [now left|].
    destruct (Qlt_bool 0 a); cbn; auto.
  - auto.
  - auto.
  - auto.
Qed.

(** C5 (as amended): with non-empty mean responses and no more trial values
    than the correction term, get_sfdi raises nothing and returns a float;
    when the count equals the correction term that float is NaN or 0.0.
    This holds whatever the rounding, np.sum and np.sqrt compute. *)
Theorem get_sfdi_small_sample_returns (rs trials : list Q) (bias : Z) :
  rs <> [] ->
  (len trials <= bias)%Z ->
  exists v, get_sfdi rnd np_sum np_sqrt rs trials bias = Ok v
    /\ (len trials = bias -> v = NaN \/ v = Fin 0).
Proof.
  intros Hrs Hlen.
  destruct (ptp_nonempty rs Hrs) as [r Hr].
  unfold get_sfdi. rewrite Hr. cbn [bind]. cbv zeta.
  eexists. split; [reflexivity|].
  intros Heq. rewrite Heq, Z.sub_diag.
  match goal with
  | |- context [rdiv rnd ?S (Fin (inject_Z 0))] =>
      destruct (rdiv_by_zero S) as [-> | [-> | ->]]
  end; destruct r as [a| | |]; cbn; auto.
Qed.

(** C9 (as amended): for trial values that all equal the mean that the
    array computes for them (the mean is exact), a count of trial values
    different from the correction term and a finite non-zero range of the
    mean responses, get_sfdi returns exactly 1.0.  The rounding leaves 0, 1
    and the range alone, np.sum of zeros is zero and np.sqrt of zero is
    zero. *)
Theorem get_sfdi_zero_variance (rs trials : list Q) (bias : Z) (r : Q) :
  representable rnd 0 ->
  representable rnd 1 ->
  (forall a, (forall x, In x a -> x = Fin 0) -> np_sum a = Fin 0) ->
  (forall q, q == 0 -> np_sqrt q = Fin 0) ->
  (forall x, In x trials ->
     exists m, array_mean rnd np_sum trials = Fin m /\ x == m) ->
  len trials <> bias ->
  ptp rnd rs = Ok (Fin r) ->
  representable rnd r ->
  ~ r == 0 ->
  get_sfdi rnd np_sum np_sqrt rs trials bias = Ok (Fin 1).
Proof.
  intros H0 H1 Hsum Hsqrt Hmean Hlen Hptp Hrep Hr.
  unfold get_sfdi. rewrite Hptp. cbn [bind]. cbv zeta.
  assert (Hsq : np_sum (map (fun x =>
                   rmul rnd (rsub rnd (Fin x) (array_mean rnd np_sum trials))
                            (rsub rnd (Fin x) (array_mean rnd np_sum trials)))
                 trials) = Fin 0).
  { apply Hsum. intros y Hy. apply in_map_iff in Hy.
    destruct Hy as (x & <- & Hx).
    destruct (Hmean x Hx) as (m & -> & Hxm).
    assert (Hd : rsub rnd (Fin x) (Fin m) = Fin 0).
    { unfold rsub, radd, fneg. apply H0. rewrite Hxm. ring. }
    rewrite Hd. unfold rmul. apply H0. ring. }
  rewrite Hsq.
  set (k := inject_Z (len trials - bias)).
  assert (Hk : ~ k == 0) by (apply inject_Z_nonzero; lia).
  assert (Hdiv : rdiv rnd (Fin 0) (Fin k) = Fin 0).
  { unfold rdiv. rewrite (Qeq_bool_false _ _ Hk). apply H0. field. exact Hk. }
  rewrite Hdiv. unfold fsqrt.
  replace (Qlt_bool 0 0) with false by reflexivity.
  rewrite (Hsqrt 0) by reflexivity.
  assert (Htwo : rmul rnd (Fin 2) (Fin 0) = Fin 0).
  { unfold rmul. apply H0. ring. }
  rewrite Htwo.
  assert (Hadd : radd rnd (Fin r) (Fin 0) = Fin r).
  { unfold radd. apply Hrep. ring. }
  rewrite Hadd. unfold rdiv. rewrite (Qeq_bool_false _ _ Hr).
  f_equal. apply H1. field. exact Hr.
Qed.

End SfdiProperties.

(** *** get_sfdi in double precision *)

(** A rational that the rounding returns unchanged is representable. *)
Lemma binary64_fixed_representable (r : Q) :
  Binary64.binary64 r = Fin r -> representable Binary64.binary64 r.
Proof.
  intros H q Hq. unfold Binary64.binary64 in *.
  rewrite (Qred_complete q r Hq). exact H.
Qed.

Lemma sequential_sum_zeros (a : list np_float) :
  (forall x, In x a -> x = Fin 0) -> Binary64.sequential_sum a = Fin 0.
Proof.
  unfold Binary64.sequential_sum. induction a as [|x t IH]; intros H.
  - reflexivity.
  - rewrite (H x (or_introl eq_refl)). simpl.
    replace (radd Binary64.binary64 (Fin 0) (Fin 0)) with (Fin 0)
      by (vm_compute; reflexivity).
    apply IH. intros y Hy. apply H. now right.
Qed.

Lemma binary64_sqrt_zero (q : Q) :
  q == 0 -> Binary64.binary64_sqrt q = Fin 0.
Proof.
  intros H. unfold Binary64.binary64_sqrt.
  rewrite (Qred_complete q 0 H). reflexivity.
Qed.

Lemma get_sfdi_small_sample_returns_witness :
  [1; 3] <> []
  /\ (len [2; 2; 2; 2; 2] <= default_bias)%Z
  /\ exists v,
       get_sfdi Binary64.binary64 Binary64.sequential_sum
                Binary64.binary64_sqrt [1; 3] [2; 2; 2; 2; 2] default_bias
       = Ok v
       /\ (len [2; 2; 2; 2; 2] = default_bias -> v = NaN \/ v = Fin 0).
Proof.
  split; [discriminate|].
  split; [vm_compute; discriminate|].
  apply (get_sfdi_small_sample_returns Binary64.binary64
           Binary64.sequential_sum Binary64.binary64_sqrt
           [1; 3] [2; 2; 2; 2; 2] default_bias).
  - discriminate.
  - vm_compute. discriminate.
Defined.

(** C5, the claim as stated fails: in double precision, with five per-trial
    values and the default correction term 5, get_sfdi raises nothing; it
    returns NaN for equal trial values, and 0.0 for five trial values 0.105,
    whose computed mean differs from them in the last place. *)
Lemma get_sfdi_degenerate_returns_nan :
  (len [2; 2; 2; 2; 2] <= default_bias)%Z
  /\ get_sfdi Binary64.binary64 Binary64.sequential_sum
              Binary64.binary64_sqrt [1; 3] [2; 2; 2; 2; 2] default_bias
     = Ok NaN
  /\ get_sfdi Binary64.binary64 Binary64.sequential_sum
              Binary64.binary64_sqrt [1; 3]
              (repeat (Binary64.double (105 # 1000)) 5) default_bias
     = Ok (Fin 0).
Proof.
  split; [vm_compute; discriminate|].
  split; vm_compute; reflexivity.
Qed.

Lemma get_sfdi_zero_variance_witness :
  len [2; 2; 2; 2; 2; 2] <> default_bias
  /\ array_mean Binary64.binary64 Binary64.sequential_sum [2; 2; 2; 2; 2; 2]
     = Fin 2
  /\ ptp Binary64.binary64 [1; 3] = Ok (Fin 2)
  /\ ~ 2 == 0
  /\ get_sfdi Binary64.binary64 Binary64.sequential_sum
              Binary64.binary64_sqrt [1; 3] [2; 2; 2; 2; 2; 2] default_bias
     = Ok (Fin 1).
Proof.
  split; [vm_compute; discriminate|].
  split; [vm_compute; reflexivity|].
  split; [vm_compute; reflexivity|].
  split; [vm_compute; discriminate|].
  apply (get_sfdi_zero_variance Binary64.binary64 Binary64.sequential_sum
           Binary64.binary64_sqrt [1; 3] [2; 2; 2; 2; 2; 2] default_bias 2).
  - apply binary64_fixed_representable. vm_compute. reflexivity.
  - apply binary64_fixed_representable. vm_compute. reflexivity.
  - exact sequential_sum_zeros.
  - exact binary64_sqrt_zero.
  - intros x Hx. exists 2. split; [vm_compute; reflexivity|].
    simpl in Hx. intuition (subst; reflexivity).
  - vm_compute. discriminate.
  - vm_compute. reflexivity.
  - apply binary64_fixed_representable. vm_compute. reflexivity.
  - vm_compute. discriminate.
Defined.

(** C9, the claim as stated fails: in double precision, six equal trial
    values 0.7 have the computed mean 0.7000000000000001, and with the mean
    responses 0.1 and 0.3 get_sfdi returns 0.9999999999999972; three equal
    trial values 0.1 give NaN; and equal trial values with equal mean
    responses give 0/0 = NaN. *)
Lemma get_sfdi_equal_trials_not_one :
  get_sfdi Binary64.binary64 Binary64.sequential_sum Binary64.binary64_sqrt
           [Binary64.double (1 # 10); Binary64.double (3 # 10)]
           (repeat (Binary64.double (7 # 10)) 6) default_bias
  = Ok (Fin (9007199254740967 # 9007199254740992))
  /\ get_sfdi Binary64.binary64 Binary64.sequential_sum
              Binary64.binary64_sqrt [1; 3]
              (repeat (Binary64.double (1 # 10)) 3) default_bias
     = Ok NaN
  /\ get_sfdi Binary64.binary64 Binary64.sequential_sum
              Binary64.binary64_sqrt [3; 3] [2; 2; 2; 2; 2; 2] default_bias
     = Ok NaN.
Proof.
  split; [|split]; vm_compute; reflexivity.
Qed.

(** ** Sorting and the stimulus axes *)

Lemma insert_sorted_In (x y : Q) (l : list Q) :
  In y (insert_sorted x l) <-> y = x \/ In y l.
Proof.
  induction l as [|z t IH]; simpl.
  - intuition.
  - destruct (Qle_bool x z); simpl; rewrite ?IH; intuition.
Qed.

Lemma sort_In (y : Q) (l : list Q) : In y (sort l) <-> In y l.
Proof.
  induction l as [|x t IH]; simpl.
  - reflexivity.
  - rewrite insert_sorted_In, IH. intuition.
Qed.

Lemma insert_sorted_sorted (x : Q) (l : list Q) :
  StronglySorted Qle l -> StronglySorted Qle (insert_sorted x l).
Proof.
  induction l as [|z t IH]; intros Hs; simpl.
  - constructor; constructor.
  - inversion Hs as [|? ? Ht Hz]; subst.
    destruct (Qle_bool x z) eqn:E.
    + apply Qle_bool_iff in E. constructor; [exact Hs|].
      constructor; [exact E|].
      rewrite Forall_forall in *. intros w Hw.
      apply Qle_trans with z; auto.
    + assert (Hzx : z <= x).
      { apply Qlt_le_weak, Qlt_bool_iff. unfold Qlt_bool. now rewrite E. }
      constructor; [apply IH; exact Ht|].
      rewrite Forall_forall in *. intros w Hw.
      apply insert_sorted_In in Hw. destruct Hw as [-> | Hw]; auto.
Qed.

Lemma sort_sorted (l : list Q) : StronglySorted Qle (sort l).
Proof.
  induction l as [|x t IH]; simpl.
  - constructor.
  - apply insert_sorted_sorted, IH.
Qed.

Lemma sorted_after (l1 : list Q) (k : Q) (l2 : list Q) :
  StronglySorted Qle (l1 ++ k :: l2) -> forall w, In w l2 -> k <= w.
Proof.
  induction l1 as [|a t IH]; simpl; intros Hs w Hw.
  - inversion Hs as [|? ? _ Hk]; subst.
    rewrite Forall_forall in Hk. auto.
  - inversion Hs; subst. eauto.
Qed.

Lemma insert_sorted_not_nil (x : Q) (l : list Q) : insert_sorted x l <> [].
Proof. destruct l as [|z t]; simpl; [|destruct (Qle_bool x z)]; discriminate. Qed.

Lemma sort_not_nil (l : list Q) : l <> [] -> sort l <> [].
Proof.
  destruct l as [|x t]; [contradiction|]. intros _. simpl.
  apply insert_sorted_not_nil.
Qed.

Lemma unique_In (y : Q) (l : list Q) : In y (unique l) -> In y l.
Proof.
  induction l as [|x t IH]; simpl; [tauto|].
  intros [H | H]; [now left|].
  apply filter_In in H. right. apply IH, H.
Qed.

Lemma unique_not_nil (l : list Q) : l <> [] -> unique l <> [].
Proof. destruct l; [contradiction|]. discriminate. Qed.

Lemma non_null_In (col : column) (tbl : list condition) (v : Q) :
  In v (non_null col tbl) <-> exists c, In c tbl /\ col c = Some v.
Proof.
  unfold non_null. rewrite in_flat_map. split.
  - intros (c & Hc & Hv). exists c. split; [exact Hc|].
    destruct (col c); simpl in Hv; [|contradiction].
    destruct Hv as [-> | []]. reflexivity.
  - intros (c & Hc & Hv). exists c. split; [exact Hc|].
    rewrite Hv. now left.
Qed.

(** Every value of an axis is the value of some condition. *)
Lemma axis_values_In (col : column) (tbl : list condition) (v : Q) :
  In v (axis_values col tbl) -> exists c, In c tbl /\ col c = Some v.
Proof.
  unfold axis_values. intros H.
  apply sort_In, unique_In in H. apply non_null_In, H.
Qed.

(** A table with a non-null cell in the column has a non-empty axis. *)
Lemma axis_values_not_nil (col : column) (tbl : list condition) :
  (exists c, In c tbl /\ col c <> None) -> axis_values col tbl <> [].
Proof.
  intros (c & Hc & Hv). unfold axis_values.
  apply sort_not_nil, unique_not_nil.
  destruct (col c) as [v|] eqn:E; [|contradiction].
  intros Hnil.
  assert (Hin : In v (non_null col tbl)) by (apply non_null_In; eauto).
  rewrite Hnil in Hin. contradiction.
Qed.

(** The conditions found for a value of the axis: there is one, and each
    has a non-null cell in the column. *)
Lemma index_where_In (col : column) (tbl : list condition) (v : Q) (i : Z) :
  In i (index_where col v tbl) ->
  exists c, In c tbl /\ col c <> None /\ condition_id c = i.
Proof.
  unfold index_where. intros H. apply in_map_iff in H.
  destruct H as (c & <- & Hc). apply filter_In in Hc.
  destruct Hc as [Hc Heq]. exists c. repeat split; [exact Hc|].
  destruct (col c); [discriminate | discriminate].
Qed.

Lemma index_where_not_nil (col : column) (tbl : list condition) (v : Q) :
  In v (axis_values col tbl) -> index_where col v tbl <> [].
Proof.
  intros H. apply axis_values_In in H. destruct H as (c & Hc & Hv).
  unfold index_where. intros Hnil.
  assert (Hin : In c (filter (fun c => cell_eq (col c) (Fin v)) tbl)).
  { apply filter_In. split; [exact Hc|]. rewrite Hv. simpl.
    apply Qeq_bool_true, Qeq_refl. }
  apply (in_map condition_id) in Hin. rewrite Hnil in Hin. contradiction.
Qed.

(** ** The error monad over lists *)

Lemma mapM_ok {A B} (g : A -> result B) (h : A -> B) (l : list A) :
  (forall x, In x l -> g x = Ok (h x)) -> mapM g l = Ok (map h l).
Proof.
  induction l as [|a t IH]; intros H; simpl.
  - reflexivity.
  - rewrite (H a) by now left. simpl.
    rewrite IH by (intros x Hx; apply H; now right). reflexivity.
Qed.

Lemma mapM_raises {A B} (g : A -> result B) (l : list A) (x : A) (e : exn) :
  In x l -> g x = Raise e -> exists e', mapM g l = Raise e'.
Proof.
  induction l as [|a t IH]; intros Hin Hx; [contradiction|].
  simpl. destruct (g a) as [b|e0] eqn:Ea; simpl.
  - destruct Hin as [-> | Hin]; [congruence|].
    destruct (IH Hin Hx) as [e' ->]. simpl. eauto.
  - eauto.
Qed.

Lemma mapM_first_raises {A B} (g : A -> result B) (a : A) (t : list A)
    (e : exn) :
  g a = Raise e -> mapM g (a :: t) = Raise e.
Proof. intros H. simpl. rewrite H. reflexivity. Qed.

Lemma combine_map_r {A B} (h : A -> B) (l : list A) :
  combine l (map h l) = map (fun x => (x, h x)) l.
Proof.
  induction l as [|a t IH]; simpl; [reflexivity|]. now rewrite IH.
Qed.

(** ** idxmax *)

Lemma idxmax_from_spec (f : Q -> Q) : forall rest pre k0 mid,
  (forall w, In w pre -> f w < f k0) ->
  (forall w, In w mid -> f w <= f k0) ->
  exists l1 k l2,
    pre ++ k0 :: mid ++ rest = l1 ++ k :: l2
    /\ idxmax_from k0 (f k0) (map (fun w => (w, Some (f w))) rest) = k
    /\ (forall w, In w l1 -> f w < f k)
    /\ (forall w, In w l2 -> f w <= f k).
Proof.
  induction rest as [|x t IH]; intros pre k0 mid Hpre Hmid.
  - exists pre, k0, mid. rewrite app_nil_r. simpl. auto.
  - simpl. destruct (Qlt_bool (f k0) (f x)) eqn:E.
    + apply Qlt_bool_iff in E.
      destruct (IH (pre ++ k0 :: mid) x []) as (l1 & k & l2 & Heq & Hk & H1 & H2).
      * intros w Hw. apply in_app_iff in Hw.
        destruct Hw as [Hw | [<- | Hw]].
        -- apply Qlt_trans with (f k0); auto.
        -- exact E.
        -- apply Qle_lt_trans with (f k0); auto.
      * intros w [].
      * exists l1, k, l2. repeat split; auto.
        rewrite <- Heq, <- app_assoc. reflexivity.
    + apply Qlt_bool_false in E.
      destruct (IH pre k0 (mid ++ [x])) as (l1 & k & l2 & Heq & Hk & H1 & H2).
      * exact Hpre.
      * intros w Hw. apply in_app_iff in Hw.
        destruct Hw as [Hw | [<- | []]]; auto.
      * exists l1, k, l2. repeat split; auto.
        rewrite <- Heq, <- app_assoc. reflexivity.
Qed.

(** On a non-empty frame without NaN, idxmax returns a label of the index
    whose value is maximal, the first such label of the index. *)
Lemma idxmax_first_maximum (f : Q -> Q) (index : list Q) :
  index <> [] ->
  exists l1 k l2,
    index = l1 ++ k :: l2
    /\ idxmax (combine index (map (fun w => Some (f w)) index)) = Ok (Fin k)
    /\ (forall w, In w l1 -> f w < f k)
    /\ (forall w, In w l2 -> f w <= f k).
Proof.
  destruct index as [|k0 rest]; [contradiction|]. intros _.
  destruct (idxmax_from_spec f rest [] k0 []) as (l1 & k & l2 & Heq & Hk & H1 & H2);
    try (intros w []).
  exists l1, k, l2. repeat split; auto.
  rewrite combine_map_r. simpl. now rewrite Hk.
Qed.

(** ** Label selection *)

Lemma has_statistic_iff (stats : list stat_row) (unit c : Z) :
  has_statistic stats unit c = true <->
  exists r, In r stats /\ unit_id r = unit /\ stimulus_condition_id r = c.
Proof.
  unfold has_statistic. rewrite existsb_exists. split.
  - intros (r & Hr & H). apply andb_true_iff in H. destruct H as [H1 H2].
    apply Z.eqb_eq in H1, H2. eauto.
  - intros (r & Hr & H1 & H2). exists r. split; [exact Hr|].
    apply andb_true_iff. split; now apply Z.eqb_eq.
Qed.

Lemma loc_unit_found (stats : list stat_row) (unit : Z) (r : stat_row) :
  In r stats -> unit_id r = unit ->
  loc_unit stats unit = Ok (filter (fun r => (unit_id r =? unit)%Z) stats).
Proof.
  intros Hr Hu. unfold loc_unit.
  destruct (filter _ stats) as [|a t] eqn:E; [|reflexivity].
  assert (Hin : In r (filter (fun r => (unit_id r =? unit)%Z) stats)).
  { apply filter_In. split; [exact Hr | now apply Z.eqb_eq]. }
  rewrite E in Hin. contradiction.
Qed.

Lemma loc_unit_rows (stats rows : list stat_row) (unit : Z) :
  loc_unit stats unit = Ok rows ->
  rows = filter (fun r => (unit_id r =? unit)%Z) stats.
Proof.
  unfold loc_unit. destruct (filter _ stats); intros H; inversion H.
  reflexivity.
Qed.

Lemma rows_of_label_In (rows : list stat_row) (c : Z) (row : Z * option Q) :
  In row (rows_of_label rows c) <->
  exists r, In r rows /\ stimulus_condition_id r = c
            /\ row = (c, Some (spike_mean r)).
Proof.
  unfold rows_of_label. rewrite in_map_iff. split.
  - intros (r & <- & Hr). apply filter_In in Hr. destruct Hr as [Hr Hc].
    apply Z.eqb_eq in Hc. eauto.
  - intros (r & Hr & Hc & ->). exists r. split; [reflexivity|].
    apply filter_In. split; [exact Hr | now apply Z.eqb_eq].
Qed.

Lemma is_nil_false {A} (l : list A) : l <> [] -> is_nil l = false.
Proof. destruct l; [contradiction | reflexivity]. Qed.

(** When every label is found, both pandas behaviours select the rows of
    the labels, in the order of the labels. *)
Lemma loc_labels_all_found (policy : loc_policy) (rows : list stat_row)
    (labels : list Z) :
  (forall c, In c labels -> rows_of_label rows c <> []) ->
  loc_labels policy rows labels = Ok (flat_map (rows_of_label rows) labels).
Proof.
  intros H. unfold loc_labels.
  assert (Hex : existsb (fun cf : Z * frame => is_nil (snd cf))
                  (map (fun c => (c, rows_of_label rows c)) labels) = false).
  { induction labels as [|c t IH]; simpl; [reflexivity|].
    rewrite is_nil_false by (apply H; now left). simpl.
    apply IH. intros c' Hc'. apply H. now right. }
  assert (Hall : forallb (fun cf : Z * frame => is_nil (snd cf))
                   (map (fun c => (c, rows_of_label rows c)) labels)
                 && negb (is_nil labels) = false).
  { destruct labels as [|c t]; simpl; [reflexivity|].
    rewrite is_nil_false by (apply H; now left). reflexivity. }
  assert (Hflat : flat_map snd (map (fun c => (c, rows_of_label rows c)) labels)
                  = flat_map (rows_of_label rows) labels).
  { clear. induction labels as [|c t IH]; simpl; [reflexivity|].
    now rewrite IH. }
  assert (Hre : flat_map (fun cf : Z * frame =>
                            if is_nil (snd cf) then [(fst cf, None)] else snd cf)
                  (map (fun c => (c, rows_of_label rows c)) labels)
                = flat_map (rows_of_label rows) labels).
  { clear Hex Hall Hflat. induction labels as [|c t IH]; simpl; [reflexivity|].
    rewrite is_nil_false by (apply H; now left).
    rewrite IH by (intros c' Hc'; apply H; now right). reflexivity. }
  cbv zeta. unfold frame in *. destruct policy.
  - rewrite Hex, Hflat. reflexivity.
  - rewrite Hall, Hre. reflexivity.
Qed.

(** When no label is found, both pandas behaviours raise KeyError. *)
Lemma loc_labels_none_found (policy : loc_policy) (rows : list stat_row)
    (labels : list Z) :
  labels <> [] ->
  (forall c, In c labels -> rows_of_label rows c = []) ->
  loc_labels policy rows labels = Raise KeyError.
Proof.
  intros Hne H. unfold loc_labels.
  assert (Hall : forallb (fun cf : Z * frame => is_nil (snd cf))
                   (map (fun c => (c, rows_of_label rows c)) labels) = true).
  { clear Hne. induction labels as [|c t IH]; simpl; [reflexivity|].
    rewrite (H c) by now left. simpl.
    apply IH. intros c' Hc'. apply H. now right. }
  cbv zeta. unfold frame in *. destruct labels as [|c t]; [contradiction|].
  destruct policy.
  - simpl. rewrite (H c) by now left. reflexivity.
  - rewrite Hall. reflexivity.
Qed.

Lemma dropna_In (q : Q) (col : list (option Q)) :
  In q (dropna col) <-> In (Some q) col.
Proof.
  unfold dropna. rewrite in_flat_map. split.
  - intros ([v|] & Hc & Hq); simpl in Hq; [|contradiction].
    destruct Hq as [-> | []]. exact Hc.
  - intros H. exists (Some q). split; [exact H | now left].
Qed.

Lemma series_mean_defined (col : list (option Q)) (q : Q) :
  In (Some q) col -> exists m, series_mean col = Some m.
Proof.
  intros H. apply dropna_In in H. unfold series_mean.
  destruct (dropna col); [contradiction|]. eauto.
Qed.

(** ** Preferred-value search *)

Section PrefProperties.

Variable policy : loc_policy.
Variable conds : list condition.
Variable stats : list stat_row.
Variable units : list Z.

Local Abbreviation self := (__init__ conds stats units).

(** On a fresh instance the search of a dimension fills the cache, then
    takes the mean response of each value of the axis and the first
    maximum. *)
Lemma preferred_value_eq (a : axis_name) (unit : Z) :
  preferred_value policy a self unit =
  (data <- mapM (mean_response policy self unit)
                (map (fun v => index_where (column_of a) v conds)
                     (axis_values (column_of a) conds)) ;;
   idxmax (combine (axis_values (column_of a) conds) data)).
Proof. destruct a; reflexivity. Qed.

Lemma mapM_map {A B C} (g : B -> result C) (i : A -> B) (l : list A) :
  mapM g (map i l) = mapM (fun x => g (i x)) l.
Proof.
  induction l as [|a t IH]; simpl; [reflexivity|]. now rewrite IH.
Qed.

Lemma on_axis_true (col : column) (c : condition) :
  col c <> None -> on_axis col c = true.
Proof. unfold on_axis. destruct (col c); [reflexivity | contradiction]. Qed.

(** A unit that covers the axis has a row for every label selected for a
    value of the axis. *)
Lemma covered_label (col : column) (unit : Z) (w : Q) (i : Z) :
  covers_axis col conds stats unit = true ->
  In i (index_where col w conds) ->
  exists r, In r (filter (fun r => (unit_id r =? unit)%Z) stats)
            /\ In r stats /\ unit_id r = unit /\ stimulus_condition_id r = i.
Proof.
  intros Hcov Hi. apply index_where_In in Hi.
  destruct Hi as (c & Hc & Hnn & <-).
  unfold covers_axis in Hcov. rewrite forallb_forall in Hcov.
  specialize (Hcov c Hc). rewrite (on_axis_true col c Hnn) in Hcov.
  simpl in Hcov. apply has_statistic_iff in Hcov.
  destruct Hcov as (r & Hr & Hu & Hs). exists r. repeat split; auto.
  apply filter_In. split; [exact Hr | now apply Z.eqb_eq].
Qed.

Lemma mean_response_covered (col : column) (unit : Z) (w : Q) :
  covers_axis col conds stats unit = true ->
  In w (axis_values col conds) ->
  exists q, mean_response policy self unit (index_where col w conds)
            = Ok (Some q).
Proof.
  intros Hcov Hw. unfold mean_response.
  cbn [conditionwise_statistics __init__].
  pose proof (index_where_not_nil col conds w Hw) as Hne.
  destruct (index_where col w conds) as [|i0 rest] eqn:Ei; [contradiction|].
  rewrite <- Ei in *.
  assert (Hi0 : In i0 (index_where col w conds)) by (rewrite Ei; now left).
  destruct (covered_label col unit w i0 Hcov Hi0) as (r0 & Hr0 & Hs0 & Hu0 & Hc0).
  rewrite (loc_unit_found stats unit r0 Hs0 Hu0). cbn [bind].
  rewrite loc_labels_all_found.
  - cbn [bind].
    destruct (series_mean_defined
                (map snd (flat_map
                            (rows_of_label
                               (filter (fun r => (unit_id r =? unit)%Z) stats))
                            (index_where col w conds)))
                (spike_mean r0)) as [m Hm].
    + apply in_map_iff. exists (i0, Some (spike_mean r0)). split; [reflexivity|].
      apply in_flat_map. exists i0. split; [exact Hi0|].
      apply rows_of_label_In. eauto.
    + rewrite Hm. eauto.
  - intros i Hi Hnil.
    destruct (covered_label col unit w i Hcov Hi) as (r & Hr & _ & _ & Hc).
    assert (Hin : In (i, Some (spike_mean r))
                     (rows_of_label
                        (filter (fun r => (unit_id r =? unit)%Z) stats) i))
      by (apply rows_of_label_In; eauto).
    rewrite Hnil in Hin. contradiction.
Qed.

(** The search on a covered, non-empty axis: the result is a value of the
    axis that maximises the mean response [f], the first one to do so in
    the ascending axis. *)
Lemma preferred_value_covered (a : axis_name) (unit : Z) :
  covers_axis (column_of a) conds stats unit = true ->
  axis_values (column_of a) conds <> [] ->
  exists (v : Q) (f : Q -> Q),
    preferred_value policy a self unit = Ok (Fin v)
    /\ In v (axis_values (column_of a) conds)
    /\ (forall w, In w (axis_values (column_of a) conds) ->
          mean_response policy self unit (index_where (column_of a) w conds)
          = Ok (Some (f w)))
    /\ (forall w, In w (axis_values (column_of a) conds) -> f w <= f v)
    /\ (forall w, In w (axis_values (column_of a) conds) ->
          f w == f v -> v <= w).
Proof.
  intros Hcov Hne.
  set (col := column_of a) in *.
  set (g := fun w => mean_response policy self unit (index_where col w conds)).
  set (f := fun w => match g w with Ok (Some q) => q | _ => 0 end).
  assert (Hf : forall w, In w (axis_values col conds) -> g w = Ok (Some (f w))).
  { intros w Hw. unfold f.
    destruct (mean_response_covered col unit w Hcov Hw) as [q Hq].
    fold (g w) in Hq. rewrite Hq. reflexivity. }
  destruct (idxmax_first_maximum f (axis_values col conds) Hne)
    as (l1 & v & l2 & Heq & Hmax & H1 & H2).
  exists v, f.
  assert (Hv : In v (axis_values col conds)).
  { rewrite Heq. apply in_app_iff. right. now left. }
  split; [|split; [exact Hv|split; [exact Hf|split]]].
  - rewrite preferred_value_eq. fold col.
    rewrite mapM_map.
    rewrite (mapM_ok _ (fun w => Some (f w))) by exact Hf.
    cbn [bind]. exact Hmax.
  - intros w Hw. rewrite Heq in Hw. apply in_app_iff in Hw.
    destruct Hw as [Hw | [<- | Hw]].
    + apply Qlt_le_weak, H1, Hw.
    + apply Qle_refl.
    + apply H2, Hw.
  - intros w Hw Htie. pose proof (sort_sorted (unique (non_null col conds))) as Hs.
    fold (axis_values col conds) in Hs. rewrite Heq in Hs, Hw.
    apply in_app_iff in Hw. destruct Hw as [Hw | [<- | Hw]].
    + apply H1 in Hw. rewrite Htie in Hw. exfalso. apply (Qlt_irrefl _ Hw).
    + apply Qle_refl.
    + apply (sorted_after l1 v l2 Hs w Hw).
Qed.

Lemma touches_axis_nonempty (col : column) (unit : Z) :
  touches_axis col conds stats unit = true -> axis_values col conds <> [].
Proof.
  intros H. apply axis_values_not_nil.
  unfold touches_axis in H. apply existsb_exists in H.
  destruct H as (c & Hc & H). apply andb_true_iff in H. destruct H as [H _].
  exists c. split; [exact Hc|]. unfold on_axis in H.
  destruct (col c); [discriminate | discriminate].
Qed.

(** A unit that does not touch the axis has no row for any label selected
    for a value of the axis. *)
Lemma untouched_label (col : column) (unit : Z) (w : Q) (i : Z) :
  touches_axis col conds stats unit = false ->
  In i (index_where col w conds) ->
  rows_of_label (filter (fun r => (unit_id r =? unit)%Z) stats) i = [].
Proof.
  intros Hno Hi. apply index_where_In in Hi.
  destruct Hi as (c & Hc & Hnn & <-).
  destruct (rows_of_label _ (condition_id c)) as [|row t] eqn:E; [reflexivity|].
  exfalso.
  assert (Hin : In row (rows_of_label
                          (filter (fun r => (unit_id r =? unit)%Z) stats)
                          (condition_id c))) by (rewrite E; now left).
  apply rows_of_label_In in Hin. destruct Hin as (r & Hr & Hs & _).
  apply filter_In in Hr. destruct Hr as [Hr Hu]. apply Z.eqb_eq in Hu.
  assert (Ht : touches_axis col conds stats unit = true).
  { unfold touches_axis. apply existsb_exists. exists c. split; [exact Hc|].
    rewrite (on_axis_true col c Hnn). simpl.
    apply has_statistic_iff. eauto. }
  congruence.
Qed.

Lemma mean_response_untouched (col : column) (unit : Z) (w : Q) :
  touches_axis col conds stats unit = false ->
  In w (axis_values col conds) ->
  mean_response policy self unit (index_where col w conds) = Raise KeyError.
Proof.
  intros Hno Hw. unfold mean_response.
  cbn [conditionwise_statistics __init__].
  destruct (loc_unit stats unit) as [rows|e] eqn:El.
  - cbn [bind]. apply loc_unit_rows in El. subst rows.
    rewrite loc_labels_none_found; [reflexivity | |].
    + apply index_where_not_nil, Hw.
    + intros i Hi. apply (untouched_label col unit w i Hno Hi).
  - unfold loc_unit in El. destruct (filter _ stats); inversion El.
    reflexivity.
Qed.

(** The search on an axis that the unit does not touch raises: KeyError
    from the label lookup of the first axis value, or ValueError from
    idxmax when the axis is empty. *)
Lemma preferred_value_untouched (a : axis_name) (unit : Z) :
  touches_axis (column_of a) conds stats unit = false ->
  preferred_value policy a self unit =
  Raise (if is_nil (axis_values (column_of a) conds) then ValueError
         else KeyError).
Proof.
  intros Hno. rewrite preferred_value_eq.
  destruct (axis_values (column_of a) conds) as [|v0 rest] eqn:E.
  - reflexivity.
  - cbn [map is_nil].
    rewrite (mapM_first_raises _ _ _ KeyError); [reflexivity|].
    apply mean_response_untouched; [exact Hno|]. rewrite E. now left.
Qed.

End PrefProperties.

Import Samples.

(** C3 (as amended): for a unit that has a recorded statistic for every
    condition on the queried axis, of which there is at least one, the
    preferred-value search of each of the three dimensions returns a value
    of the axis that maximises the mean-of-means response over the axis; of
    several maximisers it returns the first in ascending axis order. *)
Theorem preferred_value_first_maximizer (policy : loc_policy)
    (conds : list condition) (stats : list stat_row) (units : list Z)
    (a : axis_name) (unit : Z) :
  touches_axis (column_of a) conds stats unit = true ->
  covers_axis (column_of a) conds stats unit = true ->
  exists (v : Q) (f : Q -> Q),
    preferred_value policy a (__init__ conds stats units) unit = Ok (Fin v)
    /\ In v (axis_values (column_of a) conds)
    /\ (forall w, In w (axis_values (column_of a) conds) ->
          mean_response policy (__init__ conds stats units) unit
                        (index_where (column_of a) w conds)
          = Ok (Some (f w)))
    /\ (forall w, In w (axis_values (column_of a) conds) -> f w <= f v)
    /\ (forall w, In w (axis_values (column_of a) conds) ->
          f w == f v -> v <= w).
Proof.
  intros Htouch Hcov.
  apply preferred_value_covered; [exact Hcov|].
  apply (touches_axis_nonempty conds stats _ unit Htouch).
Qed.

Lemma preferred_value_first_maximizer_witness :
  exists (v : Q) (f : Q -> Q),
    preferred_value RaiseOnAnyMissing SfAxis grid_session 7 = Ok (Fin v)
    /\ In v (axis_values SF grid_conditions)
    /\ (forall w, In w (axis_values SF grid_conditions) ->
          mean_response RaiseOnAnyMissing grid_session 7
                        (index_where SF w grid_conditions)
          = Ok (Some (f w)))
    /\ (forall w, In w (axis_values SF grid_conditions) -> f w <= f v)
    /\ (forall w, In w (axis_values SF grid_conditions) ->
          f w == f v -> v <= w).
Proof.
  apply (preferred_value_first_maximizer RaiseOnAnyMissing grid_conditions
           grid_statistics [7; 8; 9]%Z SfAxis 7); reflexivity.
Defined.

(** C3, the claim as stated fails: unit 8 has statistics for conditions on
    the spatial-frequency axis, yet the search raises KeyError under either
    pandas behaviour, because the unit has none for the second axis value. *)
Lemma preferred_value_partial_statistics_raises :
  touches_axis SF grid_conditions grid_statistics 8 = true
  /\ _get_pref_sf RaiseOnAnyMissing grid_session 8 = Raise KeyError
  /\ _get_pref_sf ReindexMissing grid_session 8 = Raise KeyError.
Proof. repeat split. Qed.

(** C6: for a unit without a recorded statistic for any condition on the
    queried axis the preferred-value search raises, with the missing-label
    KeyError whenever the axis has a value, and the exception leaves
    [metrics] without a table: no row is filled with a default. *)
Theorem preferred_value_missing_data (policy : loc_policy)
    (np_pi : Q) (np_cos np_sin np_sqrt : Q -> Q)
    (conds : list condition) (stats : list stat_row) (units : list Z)
    (a : axis_name) (unit : Z) :
  touches_axis (column_of a) conds stats unit = false ->
  (exists e, preferred_value policy a (__init__ conds stats units) unit = Raise e
             /\ (axis_values (column_of a) conds <> [] -> e = KeyError))
  /\ (In unit units ->
      exists e, metrics policy np_pi np_cos np_sin np_sqrt
                        (__init__ conds stats units) = Raise e).
Proof.
  intros Hno.
  pose proof (preferred_value_untouched policy conds stats units a unit Hno)
    as Hraise.
  split.
  - eexists. split; [exact Hraise|].
    intros Hne. rewrite (is_nil_false _ Hne). reflexivity.
  - intros Hin. unfold metrics. cbn [unit_ids __init__].
    destruct a; cbn [preferred_value] in Hraise.
    + destruct (mapM (_get_pref_sf policy (__init__ conds stats units)) units);
        cbn [bind]; [|eauto].
      destruct (mapM_raises _ units unit _ Hin Hraise) as [e' ->].
      cbn [bind]. eauto.
    + destruct (mapM_raises _ units unit _ Hin Hraise) as [e' ->].
      cbn [bind]. eauto.
    + destruct (mapM (_get_pref_sf policy (__init__ conds stats units)) units);
        cbn [bind]; [|eauto].
      destruct (mapM (_get_pref_ori policy (__init__ conds stats units)) units);
        cbn [bind]; [|eauto].
      destruct (mapM_raises _ units unit _ Hin Hraise) as [e' ->].
      cbn [bind]. eauto.
Qed.

Lemma preferred_value_missing_data_witness :
  touches_axis SF grid_conditions grid_statistics 9 = false
  /\ (exists e, preferred_value ReindexMissing SfAxis grid_session 9 = Raise e
                /\ (axis_values SF grid_conditions <> [] -> e = KeyError))
  /\ (In 9%Z [7; 8; 9]%Z ->
      exists e, metrics ReindexMissing sample_pi sample_cos sample_sin
                        sample_sqrt grid_session = Raise e).
Proof.
  split; [reflexivity|].
  apply (preferred_value_missing_data ReindexMissing sample_pi sample_cos
           sample_sin sample_sqrt grid_conditions grid_statistics
           [7; 8; 9]%Z SfAxis 9).
  reflexivity.
Defined.

(** ** Orientation selectivity *)

Lemma insert_by_key_In {A} (x y : option Q * A) (l : list (option Q * A)) :
  In y (insert_by_key x l) <-> y = x \/ In y l.
Proof.
  induction l as [|z t IH]; simpl.
  - intuition.
  - destruct (key_le (fst x) (fst z)); simpl; rewrite ?IH; intuition.
Qed.

Lemma sort_by_key_In {A} (y : option Q * A) (l : list (option Q * A)) :
  In y (sort_by_key l) <-> In y l.
Proof.
  induction l as [|x t IH]; simpl.
  - reflexivity.
  - rewrite insert_by_key_In, IH. intuition.
Qed.

(** The rows selected by label carry labels of the request. *)
Lemma loc_labels_labels (policy : loc_policy) (rows : list stat_row)
    (labels : list Z) (df : frame) :
  loc_labels policy rows labels = Ok df ->
  forall row, In row df -> In (fst row) labels.
Proof.
  unfold loc_labels. cbv zeta. unfold frame in *. intros H row Hrow.
  destruct policy.
  - destruct (existsb _ _); inversion H; subst; clear H.
    apply in_flat_map in Hrow. destruct Hrow as (cf & Hcf & Hrow).
    apply in_map_iff in Hcf. destruct Hcf as (c & <- & Hc).
    simpl in Hrow. apply rows_of_label_In in Hrow.
    destruct Hrow as (r & _ & _ & ->). exact Hc.
  - destruct (_ && _); inversion H; subst; clear H.
    apply in_flat_map in Hrow. destruct Hrow as (cf & Hcf & Hrow).
    apply in_map_iff in Hcf. destruct Hcf as (c & <- & Hc).
    simpl in Hrow. destruct (is_nil (rows_of_label rows c)).
    + destruct Hrow as [<- | []]. exact Hc.
    + apply rows_of_label_In in Hrow.
      destruct Hrow as (r & _ & _ & ->). exact Hc.
Qed.

(** The orivals property returns an axis and leaves the tables alone. *)
Lemma orivals_returns (self : t) :
  exists vals self1,
    orivals self = (Some vals, self1)
    /\ stimulus_conditions self1 = stimulus_conditions self
    /\ conditionwise_statistics self1 = conditionwise_statistics self.
Proof.
  unfold orivals, cached. destruct (_orivals self) as [vals|] eqn:E.
  - exists vals, self. rewrite E. repeat split.
  - eexists _, _. repeat split.
Qed.

Lemma condition_cell_found (col : column) (tbl : list condition)
    (c : condition) :
  In c tbl -> exists o, condition_cell col tbl (condition_id c) = Ok o.
Proof.
  intros Hc. unfold condition_cell.
  destruct (find _ tbl) as [c'|] eqn:E; [eauto|].
  apply (find_none _ _ E) in Hc. rewrite Z.eqb_refl in Hc. discriminate.
Qed.

Lemma mixed_keys_uniform {A} (l : list (option Q * A)) :
  (forall r, In r l -> is_null_key r = false)
  \/ (forall r, In r l -> is_null_key r = true) ->
  mixed_keys l = false.
Proof.
  unfold mixed_keys. intros [H | H].
  - replace (existsb is_null_key l) with false; [reflexivity|].
    symmetry. apply not_true_iff_false. intros E.
    apply existsb_exists in E. destruct E as (r & Hr & E).
    rewrite (H r Hr) in E. discriminate.
  - replace (existsb (fun r => negb (is_null_key r)) l) with false;
      [apply andb_false_r|].
    symmetry. apply not_true_iff_false. intros E.
    apply existsb_exists in E. destruct E as (r & Hr & E).
    rewrite (H r Hr) in E. discriminate.
Qed.

(** C4 (as amended): when the statistics selected for the unit's preferred
    spatial frequency and phase are all exactly zero, and the orientations
    of the selected conditions are all numbers or all 'null', [_get_osi]
    raises UndefinedIndexError; it returns neither 0 nor NaN. *)
Theorem osi_of_silent_unit_is_undefined (policy : loc_policy)
    (np_pi : Q) (np_cos np_sin np_sqrt : Q -> Q)
    (self : t) (unit : Z) (pref_sf pref_phase : np_float) (df : frame) :
  selected_responses policy self unit pref_sf pref_phase = Ok df ->
  forallb (fun row => is_zero (snd row)) df = true ->
  (forall row, In row df ->
     exists o, condition_cell Ori (stimulus_conditions self) (fst row)
               = Ok (Some o))
  \/ (forall row, In row df ->
        condition_cell Ori (stimulus_conditions self) (fst row) = Ok None) ->
  _get_osi policy np_pi np_cos np_sin np_sqrt self unit pref_sf pref_phase
  = Raise UndefinedIndexError.
Proof.
  intros Hsel Hzero Hkeys.
  destruct (orivals_returns self) as (vals & self1 & Hori & Hconds & Hstats).
  unfold _get_osi. rewrite Hori. cbn [iter bind].
  assert (Hsel1 : selected_responses policy self1 unit pref_sf pref_phase
                  = Ok df).
  { unfold selected_responses in *. rewrite Hconds, Hstats. exact Hsel. }
  rewrite Hsel1. cbn [bind]. rewrite Hconds.
  set (g := fun row : Z * option Q =>
              ori <- condition_cell Ori (stimulus_conditions self) (fst row) ;;
              Ok (ori, snd row)).
  set (h := fun row : Z * option Q =>
              match g row with
              | Ok x => x
              | Raise _ => (None, snd row)
              end).
  assert (Hg : forall row, In row df -> g row = Ok (h row)).
  { intros row Hrow. unfold h.
    destruct Hkeys as [Hk | Hk].
    - destruct (Hk row Hrow) as [o Ho]. unfold g. rewrite Ho. reflexivity.
    - unfold g. rewrite (Hk row Hrow). reflexivity. }
  assert (Hsnd : forall row, In row df -> snd (h row) = snd row).
  { intros row Hrow. unfold h, g.
    destruct (condition_cell _ _ _); reflexivity. }
  rewrite (mapM_ok g h df Hg). cbn [bind].
  assert (Hmix : mixed_keys (map h df) = false).
  { apply mixed_keys_uniform. destruct Hkeys as [Hk | Hk]; [left | right];
      intros r Hr; apply in_map_iff in Hr; destruct Hr as (row & <- & Hrow);
      unfold is_null_key, h, g.
    - destruct (Hk row Hrow) as [o ->]. reflexivity.
    - rewrite (Hk row Hrow). reflexivity. }
  unfold sort_values. rewrite Hmix. cbn [bind].
  unfold osi.
  assert (Hall : forallb is_zero (map snd (sort_by_key (map h df))) = true).
  { apply forallb_forall. intros r Hr. apply in_map_iff in Hr.
    destruct Hr as (x & <- & Hx).
    apply (proj1 (sort_by_key_In x (map h df))) in Hx.
    apply in_map_iff in Hx. destruct Hx as (row & <- & Hrow).
    rewrite (Hsnd row Hrow).
    rewrite forallb_forall in Hzero. apply (Hzero row Hrow). }
  rewrite Hall. reflexivity.
Qed.

Lemma osi_of_silent_unit_is_undefined_witness :
  selected_responses RaiseOnAnyMissing grid_session 8 (Fin (2 # 100)) (Fin 0)
  = Ok [(0%Z, Some 0); (1%Z, Some 0)]
  /\ _get_osi RaiseOnAnyMissing sample_pi sample_cos sample_sin sample_sqrt
              grid_session 8 (Fin (2 # 100)) (Fin 0)
     = Raise UndefinedIndexError.
Proof.
  split; [reflexivity|].
  apply (osi_of_silent_unit_is_undefined RaiseOnAnyMissing sample_pi
           sample_cos sample_sin sample_sqrt grid_session 8
           (Fin (2 # 100)) (Fin 0) [(0%Z, Some 0); (1%Z, Some 0)]).
  - reflexivity.
  - reflexivity.
  - left. intros row [<- | [<- | []]]; eexists; reflexivity.
Defined.

(** C4, the claim as stated fails: a unit whose selected statistics are all
    zero, with a selected condition whose orientation is 'null' beside one
    whose orientation is a number.  Sorting by orientation raises TypeError
    before the index is computed. *)
Lemma osi_of_mixed_orientations_is_type_error :
  selected_responses RaiseOnAnyMissing mixed_session 8 (Fin (2 # 100)) (Fin 0)
  = Ok [(0%Z, Some 0); (1%Z, Some 0)]
  /\ forallb (fun row => is_zero (snd row))
             [(0%Z, Some 0); (1%Z, Some 0)] = true
  /\ _get_osi RaiseOnAnyMissing sample_pi sample_cos sample_sin sample_sqrt
              mixed_session 8 (Fin (2 # 100)) (Fin 0)
     = Raise TypeError.
Proof.
  repeat split; vm_compute; reflexivity.
Qed.

(** ** Concrete runs of the tuning functions *)

Lemma interior_low_cutoff_hides_high_witness :
  (low_cut (gauss_prediction sample_exp narrow_gaussian) = Ok 14%nat
   /\ high_cut (gauss_prediction sample_exp narrow_gaussian) = Ok 26%nat)
  /\ exists s,
       fit_sf_tuning sample_exp sample_power (fit_returning narrow_gaussian)
                     peaked_responses five_frequencies 2 = Ok s
       /\ sf_low_cutoff s = Fin (sf_of_index sample_power (grid_point 14))
       /\ sf_high_cutoff s = NaN.
Proof.
  split; [split; vm_compute; reflexivity|].
  apply (interior_low_cutoff_hides_high sample_exp sample_power
           (fit_returning narrow_gaussian) peaked_responses five_frequencies
           2 narrow_gaussian 14 26);
    try (vm_compute; reflexivity); lia.
Defined.

Lemma gauss_fit_failure_gives_all_nan_witness :
  fit_sf_tuning sample_exp sample_power fit_failing
                peaked_responses five_frequencies 2 = Ok all_nan.
Proof.
  apply (gauss_fit_failure_gives_all_nan sample_exp sample_power fit_failing
           peaked_responses five_frequencies 2 RuntimeError); reflexivity.
Defined.



(** * Further properties of the stimulus axes *)

Lemma filter_ordered_pairs {A} (R : A -> A -> Prop) (p : A -> bool)
    (l : list A) :
  ForallOrdPairs R l -> ForallOrdPairs R (filter p l).
Proof.
  induction 1 as [|a l Ha Hl IH]; simpl.
  - constructor.
  - destruct (p a); [|exact IH]. constructor; [|exact IH].
    rewrite Forall_forall in *. intros x Hx.
    apply filter_In in Hx. apply Ha, Hx.
Qed.

(** [unique] keeps one representative of each number. *)
Lemma unique_distinct (l : list Q) :
  ForallOrdPairs (fun a b => ~ a == b) (unique l).
Proof.
  induction l as [|x t IH]; simpl.
  - constructor.
  - constructor.
    + apply Forall_forall. intros y Hy. apply filter_In in Hy.
      destruct Hy as [_ Hy]. apply negb_true_iff in Hy.
      intros Heq. apply Qeq_bool_true in Heq. congruence.
    + apply filter_ordered_pairs, IH.
Qed.

Lemma unique_complete (x : Q) (l : list Q) :
  In x l -> exists y, In y (unique l) /\ y == x.
Proof.
  induction l as [|a t IH]; intros Hin; [contradiction|].
  destruct Hin as [-> | Hin].
  - exists x. split; [now left | apply Qeq_refl].
  - destruct (IH Hin) as (y & Hy & Hyx). simpl.
    destruct (Qeq_bool a y) eqn:E.
    + exists a. split; [now left|].
      apply Qeq_bool_iff in E. now rewrite E.
    + exists y. split; [|exact Hyx]. right.
      apply filter_In. split; [exact Hy|]. now rewrite E.
Qed.

Lemma insert_sorted_strict (x : Q) (l : list Q) :
  StronglySorted Qlt l -> (forall y, In y l -> ~ x == y) ->
  StronglySorted Qlt (insert_sorted x l).
Proof.
  induction l as [|z t IH]; intros Hs Hx; simpl.
  - constructor; constructor.
  - inversion Hs as [|? ? Ht Hz]; subst.
    destruct (Qle_bool x z) eqn:E.
    + apply Qle_bool_iff in E.
      assert (Hlt : x < z).
      { apply Qle_lteq in E. destruct E as [E|E]; [exact E|].
        exfalso. apply (Hx z); [now left | exact E]. }
      constructor; [exact Hs|]. constructor; [exact Hlt|].
      rewrite Forall_forall in *. intros w Hw.
      apply Qlt_trans with z; auto.
    + assert (Hzx : z < x).
      { apply Qlt_bool_iff. unfold Qlt_bool. now rewrite E. }
      constructor.
      * apply IH; [exact Ht|]. intros y Hy. apply Hx. now right.
      * rewrite Forall_forall in *. intros w Hw.
        apply insert_sorted_In in Hw. destruct Hw as [-> | Hw]; auto.
Qed.

Lemma sort_strict (l : list Q) :
  ForallOrdPairs (fun a b => ~ a == b) l -> StronglySorted Qlt (sort l).
Proof.
  induction 1 as [|x t Hx Ht IH]; simpl.
  - constructor.
  - apply insert_sorted_strict; [exact IH|].
    intros y Hy. apply (proj1 (sort_In y t)) in Hy.
    rewrite Forall_forall in Hx. apply Hx, Hy.
Qed.

Lemma axis_values_strict (col : column) (tbl : list condition) :
  StronglySorted Qlt (axis_values col tbl).
Proof. apply sort_strict, unique_distinct. Qed.

Lemma axis_values_complete (col : column) (tbl : list condition)
    (c : condition) (q : Q) :
  In c tbl -> col c = Some q ->
  exists v, In v (axis_values col tbl) /\ v == q.
Proof.
  intros Hc Hq.
  assert (Hin : In q (non_null col tbl)) by (apply non_null_In; eauto).
  destruct (unique_complete q _ Hin) as (v & Hv & Hvq).
  exists v. split; [|exact Hvq]. unfold axis_values.
  apply (proj2 (sort_In v _)), Hv.
Qed.

Lemma axis_attr_discovered (a : axis_name) (self : t) :
  axis_attr a (_get_stim_table_stats self)
  = Some (axis_values (column_of a) (stimulus_conditions self)).
Proof. destruct a; reflexivity. Qed.

(** X1: after dimension discovery each cached axis is strictly ascending:
    sorted, and without two equal values. *)
Theorem discovered_axes_strictly_ascending (self : t) (a : axis_name) :
  exists l, axis_attr a (_get_stim_table_stats self) = Some l
            /\ StronglySorted Qlt l.
Proof.
  rewrite axis_attr_discovered. eexists. split; [reflexivity|].
  apply axis_values_strict.
Qed.

(** X2: after dimension discovery each cached axis holds exactly the
    non-null values of its column: every axis value is the cell of some
    condition, and every non-null cell equals some axis value. *)
Theorem discovered_axes_are_the_non_null_values (self : t) (a : axis_name) :
  exists l, axis_attr a (_get_stim_table_stats self) = Some l
    /\ (forall v, In v l ->
          exists c, In c (stimulus_conditions self) /\ column_of a c = Some v)
    /\ (forall c q, In c (stimulus_conditions self) ->
          column_of a c = Some q -> exists v, In v l /\ v == q).
Proof.
  rewrite axis_attr_discovered. eexists. split; [reflexivity|]. split.
  - intros v Hv. apply axis_values_In, Hv.
  - intros c q Hc Hq. apply (axis_values_complete _ _ c q Hc Hq).
Qed.

Lemma cached_idempotent {A} (attr : t -> option A) (self : t) :
  (forall s, attr (_get_stim_table_stats s) <> None) ->
  fst (cached attr self) <> None
  /\ cached attr (snd (cached attr self)) = cached attr self
  /\ stimulus_conditions (snd (cached attr self)) = stimulus_conditions self
  /\ conditionwise_statistics (snd (cached attr self))
     = conditionwise_statistics self
  /\ unit_ids (snd (cached attr self)) = unit_ids self.
Proof.
  intros Hfill. unfold cached.
  destruct (attr self) as [v|] eqn:E; cbn [fst snd].
  - rewrite E. split; [discriminate|]. rewrite E. repeat split.
  - specialize (Hfill self).
    destruct (attr (_get_stim_table_stats self)) as [v|] eqn:E1;
      [|contradiction].
    split; [discriminate|]. cbn [fst snd]. rewrite E1. repeat split.
Qed.

(** X3: an axis property (orivals, sfvals, phasevals) of any instance
    returns a list, never None; reading it again returns the same value and
    leaves the instance as the first read left it; the tables and the unit
    ids are never changed. *)
Theorem axis_property_is_cached (a : axis_name) (self : t) :
  fst (axis_property a self) <> None
  /\ axis_property a (snd (axis_property a self)) = axis_property a self
  /\ stimulus_conditions (snd (axis_property a self))
     = stimulus_conditions self
  /\ conditionwise_statistics (snd (axis_property a self))
     = conditionwise_statistics self
  /\ unit_ids (snd (axis_property a self)) = unit_ids self.
Proof.
  destruct a; apply cached_idempotent; intros s; discriminate.
Qed.

(** ** The conditions of a dimension *)

Lemma NoDup_map_injective {A B} (f : A -> B) (l : list A) (a b : A) :
  NoDup (map f l) -> In a l -> In b l -> f a = f b -> a = b.
Proof.
  induction l as [|x t IH]; intros Hnd Ha Hb Hf; [contradiction|].
  simpl in Hnd. inversion Hnd as [|? ? Hx Ht]; subst.
  destruct Ha as [-> | Ha], Hb as [-> | Hb]; auto.
  - exfalso. apply Hx. rewrite Hf. now apply in_map.
  - exfalso. apply Hx. rewrite <- Hf. now apply in_map.
Qed.

Lemma strictly_sorted_equal (l : list Q) (a b : Q) :
  StronglySorted Qlt l -> In a l -> In b l -> a == b -> a = b.
Proof.
  induction l as [|x t IH]; intros Hs Ha Hb Hab; [contradiction|].
  inversion Hs as [|? ? Ht Hx]; subst. rewrite Forall_forall in Hx.
  destruct Ha as [-> | Ha], Hb as [-> | Hb]; auto.
  - exfalso. apply Hx in Hb. rewrite Hab in Hb. apply (Qlt_irrefl _ Hb).
  - exfalso. apply Hx in Ha. rewrite Hab in Ha. apply (Qlt_irrefl _ Ha).
Qed.

Lemma index_where_selected (col : column) (tbl : list condition) (v : Q)
    (i : Z) :
  In i (index_where col v tbl) <->
  exists c, In c tbl /\ cell_eq (col c) (Fin v) = true /\ condition_id c = i.
Proof.
  unfold index_where. rewrite in_map_iff. split.
  - intros (c & Hid & Hc). apply filter_In in Hc. exists c. tauto.
  - intros (c & Hc & Heq & Hid). exists c. split; [exact Hid|].
    apply filter_In. tauto.
Qed.

Lemma null_condition_selected (self : t) (i : Z) :
  In i (null_condition self) <->
  exists c, In c (stimulus_conditions self) /\ SF c = None
            /\ condition_id c = i.
Proof.
  unfold null_condition. rewrite in_map_iff. split.
  - intros (c & Hid & Hc). apply filter_In in Hc. exists c.
    destruct Hc as [Hc Hn]. destruct (SF c); [discriminate|]. tauto.
  - intros (c & Hc & Hn & Hid). exists c. split; [exact Hid|].
    apply filter_In. rewrite Hn. tauto.
Qed.

(** X4: with unique condition ids, every condition falls in exactly one
    group: the null condition, or the conditions selected for exactly one
    value of the spatial-frequency axis. *)
Theorem conditions_partition (self : t) (c : condition) :
  NoDup (map condition_id (stimulus_conditions self)) ->
  In c (stimulus_conditions self) ->
  (In (condition_id c) (null_condition self)
   /\ forall v, ~ In (condition_id c)
                     (index_where SF v (stimulus_conditions self)))
  \/ (~ In (condition_id c) (null_condition self)
      /\ exists v,
           In v (axis_values SF (stimulus_conditions self))
           /\ In (condition_id c)
                 (index_where SF v (stimulus_conditions self))
           /\ forall w,
                In w (axis_values SF (stimulus_conditions self)) ->
                In (condition_id c)
                   (index_where SF w (stimulus_conditions self)) ->
                w = v).
Proof.
  intros Hnd Hc. set (tbl := stimulus_conditions self) in *.
  assert (Hsame : forall c', In c' tbl -> condition_id c' = condition_id c ->
                             c' = c).
  { intros c' Hc' Hid. apply (NoDup_map_injective condition_id tbl); auto. }
  destruct (SF c) as [q|] eqn:Eq.
  - right. split.
    + intros Hin. apply null_condition_selected in Hin.
      destruct Hin as (c' & Hc' & Hn & Hid).
      rewrite (Hsame c' Hc' Hid) in Hn. congruence.
    + destruct (axis_values_complete SF tbl c q Hc Eq) as (v & Hv & Hvq).
      exists v. split; [exact Hv|]. split.
      * apply index_where_selected. exists c. repeat split; auto.
        rewrite Eq. simpl. apply Qeq_bool_true. now symmetry.
      * intros w Hw Hin. apply index_where_selected in Hin.
        destruct Hin as (c' & Hc' & Hsel & Hid).
        rewrite (Hsame c' Hc' Hid), Eq in Hsel. simpl in Hsel.
        apply Qeq_bool_iff in Hsel.
        apply (strictly_sorted_equal (axis_values SF tbl));
          [apply axis_values_strict | exact Hw | exact Hv |].
        rewrite <- Hsel. now symmetry.
  - left. split.
    + apply null_condition_selected. exists c. auto.
    + intros v Hin. apply index_where_selected in Hin.
      destruct Hin as (c' & Hc' & Hsel & Hid).
      rewrite (Hsame c' Hc' Hid), Eq in Hsel. discriminate.
Qed.

Lemma conditions_partition_witness :
  ~ In 2%Z (null_condition grid_session)
  /\ exists v,
       In v (axis_values SF grid_conditions)
       /\ In 2%Z (index_where SF v grid_conditions)
       /\ forall w, In w (axis_values SF grid_conditions) ->
                    In 2%Z (index_where SF w grid_conditions) -> w = v.
Proof.
  destruct (conditions_partition grid_session
              {| condition_id := 2; Ori := Some 0; SF := Some (4 # 100);
                 Phase := Some 0 |}) as [[Hnull _] | H].
  - repeat constructor; simpl; intuition discriminate.
  - simpl. tauto.
  - exfalso. simpl in Hnull. intuition discriminate.
  - exact H.
Defined.


Lemma loc_unit_absent (stats : list stat_row) (unit : Z) :
  (forall r, In r stats -> unit_id r <> unit) ->
  loc_unit stats unit = Raise KeyError.
Proof.
  intros H. unfold loc_unit.
  destruct (filter _ stats) as [|r t] eqn:E; [reflexivity|].
  assert (Hin : In r (filter (fun r => (unit_id r =? unit)%Z) stats))
    by (rewrite E; now left).
  apply filter_In in Hin. destruct Hin as [Hr Hu].
  apply Z.eqb_eq in Hu. exfalso. apply (H r Hr Hu).
Qed.

(** X6: for a unit without any row in the statistics table, [_get_osi]
    raises KeyError, whatever preferred values it is given and whatever is
    cached. *)
Theorem osi_of_unknown_unit_raises (policy : loc_policy)
    (np_pi : Q) (np_cos np_sin np_sqrt : Q -> Q)
    (self : t) (unit : Z) (pref_sf pref_phase : np_float) :
  (forall r, In r (conditionwise_statistics self) -> unit_id r <> unit) ->
  _get_osi policy np_pi np_cos np_sin np_sqrt self unit pref_sf pref_phase
  = Raise KeyError.
Proof.
  intros Hno.
  destruct (orivals_returns self) as (vals & self1 & Hori & Hconds & Hstats).
  unfold _get_osi. rewrite Hori. cbn [iter bind].
  unfold selected_responses. rewrite Hstats.
  rewrite (loc_unit_absent _ unit Hno). reflexivity.
Qed.

Lemma osi_of_unknown_unit_raises_witness :
  _get_osi ReindexMissing sample_pi sample_cos sample_sin sample_sqrt
           grid_session 9 (Fin (2 # 100)) (Fin 0) = Raise KeyError.
Proof.
  apply (osi_of_unknown_unit_raises ReindexMissing sample_pi sample_cos
           sample_sin sample_sqrt grid_session 9 (Fin (2 # 100)) (Fin 0)).
  intros r Hr. simpl in Hr.
  repeat (destruct Hr as [<- | Hr]; [discriminate|]). contradiction.
Defined.

Lemma mapM_ext_in {A B} (f g : A -> result B) (l : list A) :
  (forall x, In x l -> f x = g x) -> mapM f l = mapM g l.
Proof.
  induction l as [|a t IH]; intros H; simpl; [reflexivity|].
  rewrite (H a) by now left.
  rewrite IH by (intros x Hx; apply H; now right). reflexivity.
Qed.

Lemma mean_response_policy_free (conds : list condition)
    (stats : list stat_row) (units : list Z) (col : column) (unit : Z)
    (w : Q) :
  covers_axis col conds stats unit = true ->
  In w (axis_values col conds) ->
  mean_response RaiseOnAnyMissing (__init__ conds stats units) unit
                (index_where col w conds)
  = mean_response ReindexMissing (__init__ conds stats units) unit
                  (index_where col w conds).
Proof.
  intros Hcov Hw. unfold mean_response.
  cbn [conditionwise_statistics __init__].
  destruct (loc_unit stats unit) as [rows|e] eqn:El; [|reflexivity].
  cbn [bind]. apply loc_unit_rows in El. subst rows.
  assert (Hfound : forall i, In i (index_where col w conds) ->
            rows_of_label (filter (fun r => (unit_id r =? unit)%Z) stats) i
            <> []).
  { intros i Hi Hnil.
    destruct (covered_label conds stats col unit w i Hcov Hi)
      as (r & Hr & _ & _ & Hc).
    assert (Hin : In (i, Some (spike_mean r))
                     (rows_of_label
                        (filter (fun r => (unit_id r =? unit)%Z) stats) i))
      by (apply rows_of_label_In; eauto).
    rewrite Hnil in Hin. contradiction. }
  rewrite !loc_labels_all_found by exact Hfound. reflexivity.
Qed.

(** X7: for a unit with a statistic for every condition on the axis, the
    preferred-value search gives the same result under the strict and under
    the reindexing behaviour of pandas label lookup. *)
Theorem preferred_value_policy_free (conds : list condition)
    (stats : list stat_row) (units : list Z) (a : axis_name) (unit : Z) :
  covers_axis (column_of a) conds stats unit = true ->
  preferred_value RaiseOnAnyMissing a (__init__ conds stats units) unit
  = preferred_value ReindexMissing a (__init__ conds stats units) unit.
Proof.
  intros Hcov. rewrite !preferred_value_eq, !mapM_map.
  rewrite (mapM_ext_in
             (fun v => mean_response RaiseOnAnyMissing
                         (__init__ conds stats units) unit
                         (index_where (column_of a) v conds))
             (fun v => mean_response ReindexMissing
                         (__init__ conds stats units) unit
                         (index_where (column_of a) v conds))).
  - reflexivity.
  - intros w Hw. apply mean_response_policy_free; assumption.
Qed.

Lemma preferred_value_policy_free_witness :
  preferred_value RaiseOnAnyMissing OriAxis grid_session 7
  = preferred_value ReindexMissing OriAxis grid_session 7.
Proof.
  apply (preferred_value_policy_free grid_conditions grid_statistics
           [7; 8; 9]%Z OriAxis 7).
  reflexivity.
Defined.

(** * Further properties of fit_sf_tuning *)

Lemma getitem_in_range {A} (l : list A) (i : Z) :
  (- len l <= i < len l)%Z -> exists a, getitem l i = Ok a.
Proof.
  intros Hi. unfold getitem. cbv zeta.
  set (j := (if (i <? 0)%Z then (i + len l)%Z else i)).
  assert (Hj : (0 <= j < len l)%Z).
  { unfold j. destruct (i <? 0)%Z eqn:E.
    - apply Z.ltb_lt in E. lia.
    - apply Z.ltb_ge in E. lia. }
  replace ((0 <=? j)%Z && (j <? len l)%Z) with true.
  - destruct (nth_error l (Z.to_nat j)) as [a|] eqn:En; [eauto|].
    apply nth_error_None in En. unfold len in Hj. lia.
  - symmetry. apply andb_true_iff. split; [apply Z.leb_le | apply Z.ltb_lt]; lia.
Qed.

Lemma getitem_out_of_range {A} (l : list A) (i : Z) :
  ~ (- len l <= i < len l)%Z -> getitem l i = Raise IndexError.
Proof.
  intros Hi. unfold getitem. cbv zeta.
  set (j := (if (i <? 0)%Z then (i + len l)%Z else i)).
  assert (Hj : ~ (0 <= j < len l)%Z).
  { unfold j. destruct (i <? 0)%Z eqn:E.
    - apply Z.ltb_lt in E. unfold len in *. lia.
    - apply Z.ltb_ge in E. lia. }
  destruct ((0 <=? j)%Z && (j <? len l)%Z) eqn:E; [|reflexivity].
  apply andb_true_iff in E. destruct E as [E1 E2].
  apply Z.leb_le in E1. apply Z.ltb_lt in E2. lia.
Qed.

Lemma is_interior_in_range (sf_values : list Q) (i : Z) :
  is_interior sf_values i = true -> (- len sf_values <= i < len sf_values)%Z.
Proof.
  unfold is_interior. intros H. apply andb_true_iff in H.
  destruct H as [H1 H2]. apply Z.leb_le in H1. apply Z.ltb_lt in H2.
  unfold len in *. lia.
Qed.

Lemma argmin_nonempty (l : list Q) : l <> [] -> exists i, argmin l = Ok i.
Proof. destruct l; [contradiction|]. simpl. eauto. Qed.

Lemma half_max_distance_nonempty (p : list Q) :
  p <> [] -> exists d, half_max_distance p = Ok d /\ length d = length p.
Proof.
  intros Hp. unfold half_max_distance.
  destruct p as [|x t]; [contradiction|]. cbn [amax bind].
  eexists. split; [reflexivity|]. apply length_map.
Qed.

(** Where the two half-max searches land relative to the peak. *)
Lemma cut_positions (p : list Q) (peak : nat) :
  argmax p = Ok peak ->
  (exists h, high_cut p = Ok h /\ (peak <= h < length p)%nat)
  /\ (peak = 0%nat -> low_cut p = Raise ValueError)
  /\ ((0 < peak)%nat -> exists l, low_cut p = Ok l /\ (l < peak)%nat).
Proof.
  intros Hpeak.
  pose proof (argmax_lt p peak Hpeak) as Hlt.
  assert (Hp : p <> []) by (intros ->; discriminate).
  destruct (half_max_distance_nonempty p Hp) as (d & Hd & Ld).
  unfold high_cut, low_cut. rewrite Hd, Hpeak. cbn [bind].
  split; [|split].
  - destruct (argmin_nonempty (skipn peak d)) as [i Hi].
    + intros Hnil. apply (f_equal (@length Q)) in Hnil.
      rewrite length_skipn in Hnil. simpl in Hnil. lia.
    + rewrite Hi. cbn [bind]. eexists. split; [reflexivity|].
      apply argmin_lt in Hi. rewrite length_skipn in Hi. lia.
  - intros ->. reflexivity.
  - intros Hpos. destruct (argmin_nonempty (firstn peak d)) as [l Hl].
    + intros Hnil. apply (f_equal (@length Q)) in Hnil.
      rewrite length_firstn in Hnil. simpl in Hnil. lia.
    + exists l. split; [exact Hl|].
      apply argmin_lt in Hl. rewrite length_firstn in Hl. lia.
Qed.

Section MoreFitProperties.

Variable np_exp : Q -> Q.
Variable np_power : Q -> Q -> Q.
Variable curve_fit :
  (Q -> Q -> Q -> Q -> Q) -> list Q -> list Q -> popt -> nat -> result popt.

(** X8: fit_sf_tuning returns exactly when the preferred index is a valid
    Python index of sf_values (from -len to len-1); otherwise it raises
    IndexError.  No failure of the fit or of the cutoff search escapes. *)
Theorem fit_sf_tuning_raises_only_out_of_range (rs sf_values : list Q)
    (i : Z) :
  ((- len sf_values <= i < len sf_values)%Z ->
   exists s, fit_sf_tuning np_exp np_power curve_fit rs sf_values i = Ok s)
  /\ (~ (- len sf_values <= i < len sf_values)%Z ->
      fit_sf_tuning np_exp np_power curve_fit rs sf_values i
      = Raise IndexError).
Proof.
  unfold fit_sf_tuning, fit_sf_tuning_body.
  destruct (is_interior sf_values i) eqn:Eint.
  - split.
    + intros _. unfold try_except_pass. eauto.
    + intros Hout. exfalso. apply Hout, is_interior_in_range, Eint.
  - unfold seq_bind at 1 2 3. unfold set_fit_sf_ind at 1. unfold lift at 1.
    split.
    + intros Hin. destruct (getitem_in_range sf_values i Hin) as [v ->].
      unfold set_fit_sf at 1. unfold try_except_pass. eauto.
    + intros Hout. rewrite (getitem_out_of_range sf_values i Hout).
      reflexivity.
Qed.

(** The runs of the boundary branch, by what the exponential fit and the
    search of the cutoff do. *)
Lemma boundary_run (rs sf_values : list Q) (i : Z) (v : Q) :
  is_interior sf_values i = false ->
  getitem sf_values i = Ok v ->
  exists low high,
    fit_sf_tuning np_exp np_power curve_fit rs sf_values i
    = Ok {| fit_sf_ind := Fin (inject_Z i); fit_sf := Fin v;
            sf_low_cutoff := low; sf_high_cutoff := high |}
    /\ (i = 0%Z -> low = NaN)
    /\ (i <> 0%Z -> high = NaN)
    /\ (forall e, exp_fit np_exp curve_fit rs sf_values = Raise e ->
                  low = NaN /\ high = NaN).
Proof.
  intros Eint Hget.
  unfold fit_sf_tuning, fit_sf_tuning_body. rewrite Eint.
  unfold seq_bind at 1 2 3. unfold set_fit_sf_ind at 1. unfold lift at 1.
  rewrite Hget. unfold set_fit_sf at 1. unfold try_except_pass.
  cbn [fit_sf_ind fit_sf sf_low_cutoff sf_high_cutoff all_nan snd].
  unfold boundary_body, seq_bind, lift.
  destruct (exp_fit np_exp curve_fit rs sf_values) as [fit|e0].
  - destruct (i =? 0)%Z eqn:Ei.
    + apply Z.eqb_eq in Ei.
      destruct (high_cut (exp_prediction np_exp fit)) as [h|].
      * destruct (getitem dense_grid (Z.of_nat h)) as [g|];
          cbn; eexists _, _; (split; [reflexivity|]);
          repeat split; try reflexivity; try congruence;
          intros; discriminate.
      * cbn. eexists _, _. split; [reflexivity|].
        repeat split; try reflexivity; try congruence; intros; discriminate.
    + apply Z.eqb_neq in Ei.
      destruct (low_cut (exp_prediction np_exp fit)) as [l|].
      * destruct (getitem dense_grid (Z.of_nat l)) as [g|];
          cbn; eexists _, _; (split; [reflexivity|]);
          repeat split; try reflexivity; try congruence;
          intros; discriminate.
      * cbn. eexists _, _. split; [reflexivity|].
        repeat split; try reflexivity; try congruence; intros; discriminate.
  - cbn. eexists _, _. split; [reflexivity|]. repeat split.
Qed.

(** The runs of the interior branch, whatever the fit and the searches do. *)
Lemma interior_cases (rs sf_values : list Q) (i : Z) :
  is_interior sf_values i = true ->
  (exists e, gauss_fit np_exp curve_fit rs sf_values i = Raise e
             /\ fit_sf_tuning np_exp np_power curve_fit rs sf_values i
                = Ok all_nan)
  \/ (exists fit,
        gauss_fit np_exp curve_fit rs sf_values i = Ok fit
        /\ ((exists l h,
               low_cut (gauss_prediction np_exp fit) = Ok l
               /\ high_cut (gauss_prediction np_exp fit) = Ok h)
            \/ ((exists e, low_cut (gauss_prediction np_exp fit) = Raise e
                           \/ high_cut (gauss_prediction np_exp fit) = Raise e)
                /\ fit_sf_tuning np_exp np_power curve_fit rs sf_values i
                   = Ok {| fit_sf_ind := Fin (snd (fst fit));
                           fit_sf := Fin (sf_of_index np_power (snd (fst fit)));
                           sf_low_cutoff := NaN; sf_high_cutoff := NaN |}))).
Proof.
  intros Eint.
  unfold fit_sf_tuning, fit_sf_tuning_body. rewrite Eint.
  unfold try_except_pass, interior_body, seq_bind, lift.
  destruct (gauss_fit np_exp curve_fit rs sf_values i) as [fit|e].
  - right. exists fit. split; [reflexivity|].
    cbn [set_fit_sf_ind set_fit_sf fst snd].
    destruct (low_cut (gauss_prediction np_exp fit)) as [l|e1].
    + destruct (high_cut (gauss_prediction np_exp fit)) as [h|e2].
      * left. eauto.
      * right. split; [eauto | reflexivity].
    + right. split; [eauto | reflexivity].
  - left. exists e. split; reflexivity.
Qed.

(** X9: fit_sf_tuning never reports both cutoffs: in every result at
    least one of the low and the high cutoff is NaN. *)
Theorem fit_sf_tuning_reports_one_cutoff_at_most (rs sf_values : list Q)
    (i : Z) (s : locals) :
  fit_sf_tuning np_exp np_power curve_fit rs sf_values i = Ok s ->
  sf_low_cutoff s = NaN \/ sf_high_cutoff s = NaN.
Proof.
  intros H. destruct (is_interior sf_values i) eqn:Eint.
  - destruct (interior_cases rs sf_values i Eint)
      as [(e & _ & Hr) | (fit & Hfit & [(l & h & Hl & Hh) | (_ & Hr)])].
    + rewrite Hr in H. injection H as <-. now left.
    + rewrite (interior_run np_exp np_power curve_fit rs sf_values i fit l h
                 Eint Hfit Hl Hh) in H.
      injection H as <-. cbn [sf_low_cutoff sf_high_cutoff].
      destruct (0 <? l)%nat; auto.
    + rewrite Hr in H. injection H as <-. now left.
  - destruct (getitem sf_values i) as [v|e] eqn:Hget.
    + destruct (boundary_run rs sf_values i v Eint Hget)
        as (low & high & Hr & H0 & Hn0 & _).
      rewrite Hr in H. injection H as <-.
      cbn [sf_low_cutoff sf_high_cutoff].
      destruct (Z.eq_dec i 0); auto.
    + exfalso. unfold fit_sf_tuning, fit_sf_tuning_body in H.
      rewrite Eint in H.
      unfold seq_bind at 1 2 3 in H. unfold set_fit_sf_ind at 1 in H.
      unfold lift at 1 in H. rewrite Hget in H. discriminate.
Qed.

(** X10: at a valid boundary index other than 0 (the last position, or a
    negative Python index) fit_sf_tuning reports that index, the raw axis
    value found at it, and no high cutoff. *)
Theorem boundary_other_index (rs sf_values : list Q) (i : Z) (v : Q) :
  is_interior sf_values i = false ->
  i <> 0%Z ->
  getitem sf_values i = Ok v ->
  exists s, fit_sf_tuning np_exp np_power curve_fit rs sf_values i = Ok s
    /\ fit_sf_ind s = Fin (inject_Z i) /\ fit_sf s = Fin v
    /\ sf_high_cutoff s = NaN.
Proof.
  intros Eint Hi Hget.
  destruct (boundary_run rs sf_values i v Eint Hget)
    as (low & high & Hr & _ & Hn0 & _).
  eexists. split; [exact Hr|].
  cbn [fit_sf_ind fit_sf sf_high_cutoff]. repeat split. apply Hn0, Hi.
Qed.

(** X11: in the boundary branch a failing exponential fit leaves both
    cutoffs undefined, but the preferred index and the raw axis value are
    still reported, unlike the all-NaN result of the interior branch. *)
Theorem exp_fit_failure_keeps_preferred_value (rs sf_values : list Q)
    (i : Z) (v : Q) (e : exn) :
  is_interior sf_values i = false ->
  getitem sf_values i = Ok v ->
  exp_fit np_exp curve_fit rs sf_values = Raise e ->
  fit_sf_tuning np_exp np_power curve_fit rs sf_values i
  = Ok {| fit_sf_ind := Fin (inject_Z i); fit_sf := Fin v;
          sf_low_cutoff := NaN; sf_high_cutoff := NaN |}.
Proof.
  intros Eint Hget Hfit.
  destruct (boundary_run rs sf_values i v Eint Hget)
    as (low & high & Hr & _ & _ & Hfail).
  destruct (Hfail e Hfit) as [-> ->]. exact Hr.
Qed.

(** X12: in the interior branch a successful fit always reports its centre
    and the frequency of the centre; when the fitted curve peaks at the first
    grid sample the search below the peak fails, and neither cutoff is
    reported. *)
Theorem interior_fit_reports_centre (rs sf_values : list Q) (i : Z)
    (fit : popt) :
  is_interior sf_values i = true ->
  gauss_fit np_exp curve_fit rs sf_values i = Ok fit ->
  exists s, fit_sf_tuning np_exp np_power curve_fit rs sf_values i = Ok s
    /\ fit_sf_ind s = Fin (snd (fst fit))
    /\ fit_sf s = Fin (sf_of_index np_power (snd (fst fit)))
    /\ (argmax (gauss_prediction np_exp fit) = Ok 0%nat ->
        sf_low_cutoff s = NaN /\ sf_high_cutoff s = NaN).
Proof.
  intros Eint Hfit.
  destruct (interior_cases rs sf_values i Eint)
    as [(e & He & _) | (fit' & Hfit' & [(l & h & Hl & Hh) | (_ & Hr)])];
    try congruence.
  - assert (fit' = fit) by congruence. subst fit'.
    rewrite (interior_run np_exp np_power curve_fit rs sf_values i fit l h
               Eint Hfit Hl Hh).
    eexists. split; [reflexivity|].
    cbn [fit_sf_ind fit_sf sf_low_cutoff sf_high_cutoff].
    split; [reflexivity|]. split; [reflexivity|].
    intros Hpeak. destruct (cut_positions _ _ Hpeak) as (_ & Hlow & _).
    rewrite (Hlow eq_refl) in Hl. discriminate.
  - assert (fit' = fit) by congruence. subst fit'.
    rewrite Hr. eexists. split; [reflexivity|].
    cbn [fit_sf_ind fit_sf sf_low_cutoff sf_high_cutoff]. repeat split.
Qed.

(** X13: the two half-max searches bracket the peak of the sampled curve:
    the search above the peak always succeeds, at a position from the peak
    to the last sample; the search below succeeds exactly when the peak is
    not the first sample, at a position strictly below the peak, and raises
    ValueError otherwise. *)
Theorem cutoff_searches_bracket_the_peak (p : list Q) (peak : nat) :
  argmax p = Ok peak ->
  (exists h, high_cut p = Ok h /\ (peak <= h < length p)%nat)
  /\ (peak = 0%nat -> low_cut p = Raise ValueError)
  /\ ((0 < peak)%nat -> exists l, low_cut p = Ok l /\ (l < peak)%nat).
Proof. apply cut_positions. Qed.

(** X14: in the interior branch a reported high cutoff is always the
    frequency of one of the grid samples 1, 2 or 3 (indices 0.1, 0.2, 0.3):
    the test against 4 is made on the sample position. *)
Theorem interior_high_cutoff_is_near_zero (rs sf_values : list Q) (i : Z)
    (s : locals) :
  is_interior sf_values i = true ->
  fit_sf_tuning np_exp np_power curve_fit rs sf_values i = Ok s ->
  sf_high_cutoff s <> NaN ->
  exists k, (1 <= k <= 3)%nat
            /\ sf_high_cutoff s = Fin (sf_of_index np_power (grid_point k)).
Proof.
  intros Eint H Hhigh.
  destruct (interior_cases rs sf_values i Eint)
    as [(e & _ & Hr) | (fit & Hfit & [(l & h & Hl & Hh) | (_ & Hr)])].
  - rewrite Hr in H. injection H as <-. now elim Hhigh.
  - rewrite (interior_run np_exp np_power curve_fit rs sf_values i fit l h
               Eint Hfit Hl Hh) in H.
    injection H as <-. cbn [sf_high_cutoff] in Hhigh |- *.
    destruct (0 <? l)%nat; [now elim Hhigh|].
    destruct (h <? 4)%nat eqn:E4; [|now elim Hhigh].
    apply Nat.ltb_lt in E4. exists h. split; [|reflexivity].
    destruct (argmax (gauss_prediction np_exp fit)) as [peak|] eqn:Hpeak.
    + destruct (cut_positions _ _ Hpeak) as ((h' & Hh' & Hb) & Hlow & _).
      assert (h' = h) by congruence. subst h'.
      destruct peak as [|peak]; [|lia].
      rewrite (Hlow eq_refl) in Hl. discriminate.
    + unfold high_cut in Hh. rewrite Hpeak in Hh.
      destruct (half_max_distance _); discriminate.
  - rewrite Hr in H. injection H as <-. now elim Hhigh.
Qed.

End MoreFitProperties.

Import MoreSamples.

Lemma fit_sf_tuning_reports_one_cutoff_at_most_witness :
  exists s,
    fit_sf_tuning sample_exp sample_power (fit_returning narrow_gaussian)
                  peaked_responses five_frequencies 2 = Ok s
    /\ (sf_low_cutoff s = NaN \/ sf_high_cutoff s = NaN).
Proof.
  eexists. split; [vm_compute; reflexivity|].
  apply (fit_sf_tuning_reports_one_cutoff_at_most sample_exp sample_power
           (fit_returning narrow_gaussian) peaked_responses five_frequencies
           2).
  vm_compute. reflexivity.
Defined.

Lemma boundary_other_index_witness :
  (exists s,
     fit_sf_tuning sample_exp sample_power (fit_returning narrow_gaussian)
                   peaked_responses five_frequencies 4 = Ok s
     /\ fit_sf_ind s = Fin (inject_Z 4) /\ fit_sf s = Fin (32 # 100)
     /\ sf_high_cutoff s = NaN)
  /\ (exists s,
        fit_sf_tuning sample_exp sample_power (fit_returning narrow_gaussian)
                      peaked_responses five_frequencies (-1) = Ok s
        /\ fit_sf_ind s = Fin (inject_Z (-1)) /\ fit_sf s = Fin (32 # 100)
        /\ sf_high_cutoff s = NaN).
Proof.
  split.
  - apply (boundary_other_index sample_exp sample_power
             (fit_returning narrow_gaussian) peaked_responses
             five_frequencies 4 (32 # 100));
      [reflexivity | discriminate | reflexivity].
  - apply (boundary_other_index sample_exp sample_power
             (fit_returning narrow_gaussian) peaked_responses
             five_frequencies (-1) (32 # 100));
      [reflexivity | discriminate | reflexivity].
Defined.

Lemma exp_fit_failure_keeps_preferred_value_witness :
  fit_sf_tuning sample_exp sample_power fit_failing
                peaked_responses five_frequencies 0
  = Ok {| fit_sf_ind := Fin (inject_Z 0); fit_sf := Fin (2 # 100);
          sf_low_cutoff := NaN; sf_high_cutoff := NaN |}.
Proof.
  apply (exp_fit_failure_keeps_preferred_value sample_exp sample_power
           fit_failing peaked_responses five_frequencies 0 (2 # 100)
           RuntimeError); reflexivity.
Defined.

Lemma interior_fit_reports_centre_witness :
  argmax (gauss_prediction sample_exp first_sample_gaussian) = Ok 0%nat
  /\ exists s,
       fit_sf_tuning sample_exp sample_power
                     (fit_returning first_sample_gaussian)
                     peaked_responses five_frequencies 2 = Ok s
       /\ fit_sf_ind s = Fin 0
       /\ fit_sf s = Fin (sf_of_index sample_power 0)
       /\ (argmax (gauss_prediction sample_exp first_sample_gaussian)
           = Ok 0%nat ->
           sf_low_cutoff s = NaN /\ sf_high_cutoff s = NaN).
Proof.
  split; [vm_compute; reflexivity|].
  apply (interior_fit_reports_centre sample_exp sample_power
           (fit_returning first_sample_gaussian) peaked_responses
           five_frequencies 2 first_sample_gaussian); reflexivity.
Defined.

Lemma cutoff_searches_bracket_the_peak_witness :
  (exists h, high_cut (gauss_prediction sample_exp narrow_gaussian) = Ok h
             /\ (20 <= h < length (gauss_prediction sample_exp
                                                    narrow_gaussian))%nat)
  /\ (20%nat = 0%nat ->
      low_cut (gauss_prediction sample_exp narrow_gaussian)
      = Raise ValueError)
  /\ ((0 < 20)%nat ->
      exists l, low_cut (gauss_prediction sample_exp narrow_gaussian) = Ok l
                /\ (l < 20)%nat).
Proof.
  apply (cutoff_searches_bracket_the_peak
           (gauss_prediction sample_exp narrow_gaussian) 20).
  vm_compute. reflexivity.
Defined.

Lemma interior_high_cutoff_is_near_zero_witness :
  exists s,
    fit_sf_tuning sample_exp_wide sample_power (fit_returning early_gaussian)
                  peaked_responses five_frequencies 2 = Ok s
    /\ exists k, (1 <= k <= 3)%nat
                 /\ sf_high_cutoff s
                    = Fin (sf_of_index sample_power (grid_point k)).
Proof.
  eexists. split; [vm_compute; reflexivity|].
  apply (interior_high_cutoff_is_near_zero sample_exp_wide sample_power
           (fit_returning early_gaussian) peaked_responses five_frequencies
           2).
  - reflexivity.
  - vm_compute. reflexivity.
  - discriminate.
Defined.


(** * Properties of the simulation driver *)

Import SimulateNeuron.

Section SimulationProperties.

Variables exc trace value model disk sweep_properties : Type.
Variable get_sweep : disk -> String.string -> Z -> outcome exc (sweep_data trace).
Variable set_sweep :
  disk -> String.string -> Z -> option trace -> option trace ->
  outcome exc unit * disk.
Variable run :
  neuron_t model -> value -> value -> value -> trace ->
  outcome exc (run_output trace) * neuron_t model.
Variable true_divide : Q -> Q -> outcome exc np_float.
Variable key_error : String.string -> exc.

Local Abbreviation sweep_from_file :=
  (simulate_sweep_from_file get_sweep set_sweep run true_divide).
Local Abbreviation main' :=
  (main get_sweep set_sweep run true_divide key_error
        (sweep_properties := sweep_properties)).

Lemma load_failure_run (n : Z)
    (input output : String.string) (iv it ia : value)
    (st : state exc model disk) (e : exc) :
  get_sweep (files st) input n = Raised e ->
  simulate_sweep_from_file get_sweep set_sweep run true_divide
                           n input output iv it ia st
  = (Raised e,
     {| files := files st; neuron := neuron st;
        log := log st ++ [(DEBUG, LoadingSweep n);
                          (WARNING, FailedToLoad e)] |}).
Proof.
  intros Hload.
  unfold simulate_sweep_from_file, try_except, load_sweep, bind, logging,
    raise.
  cbn [files neuron log]. rewrite Hload. cbn [files neuron log].
  rewrite <- app_assoc. reflexivity.
Qed.

(** X17: when the sweep cannot be loaded, simulate_sweep_from_file logs a
    warning and raises the same exception again; the files and the neuron
    are untouched, and nothing is simulated or written. *)
Theorem load_failure_is_logged_and_reraised (n : Z)
    (input output : String.string) (iv it ia : value)
    (st : state exc model disk) (e : exc) :
  get_sweep (files st) input n = Raised e ->
  simulate_sweep_from_file get_sweep set_sweep run true_divide
                           n input output iv it ia st
  = (Raised e,
     {| files := files st; neuron := neuron st;
        log := log st ++ [(DEBUG, LoadingSweep n);
                          (WARNING, FailedToLoad e)] |}).
Proof. apply load_failure_run. Qed.

(** X18: when the neuron model fails on a loaded sweep, the exception
    leaves simulate_sweep_from_file without a warning; nothing is written,
    but the neuron was already given the time step of the sweep. *)
Theorem run_failure_keeps_new_time_step (n : Z)
    (input output : String.string) (iv it ia : value)
    (st : state exc model disk) (data : sweep_data trace) (d : np_float)
    (e : exc) (after : neuron_t model) :
  get_sweep (files st) input n = Done data ->
  true_divide 1 (sampling_rate data) = Done d ->
  run {| dt := d; model_state := model_state (neuron st) |} iv it ia
      (stimulus data) = (Raised e, after) ->
  simulate_sweep_from_file get_sweep set_sweep run true_divide
                           n input output iv it ia st
  = (Raised e,
     {| files := files st; neuron := after;
        log := log st ++ [(DEBUG, LoadingSweep n); (DEBUG, LoadTime);
                          (DEBUG, Simulating)] |}).
Proof.
  intros Hload Hdiv Hrun.
  unfold simulate_sweep_from_file, try_except, load_sweep, simulate_sweep,
    neuron_run, set_dt, lift, bind, logging, ret.
  cbn [files neuron log]. rewrite Hload. cbn [files neuron log].
  rewrite Hdiv. cbn [files neuron log]. rewrite Hrun.
  rewrite <- !app_assoc. reflexivity.
Qed.

(** X19: simulate_sweep_from_file changes the files through at most one
    call of set_sweep, on the output file and the sweep itself, with no
    stimulus; when it returns normally that call was made, with the voltage
    that the neuron computed under the time step 1/sampling_rate from the
    stimulus that was loaded. *)
Theorem sweep_is_written_once (n : Z)
    (input output : String.string) (iv it ia : value)
    (st st' : state exc model disk) (o : outcome exc unit) :
  simulate_sweep_from_file get_sweep set_sweep run true_divide
                           n input output iv it ia st = (o, st') ->
  (files st' = files st
   \/ exists response,
        files st' = snd (set_sweep (files st) output n None (Some response)))
  /\ (o = Done tt ->
      exists data d out,
        get_sweep (files st) input n = Done data
        /\ true_divide 1 (sampling_rate data) = Done d
        /\ run {| dt := d; model_state := model_state (neuron st) |}
               iv it ia (stimulus data) = (Done out, neuron st')
        /\ set_sweep (files st) output n None (Some (voltage out))
           = (Done tt, files st')).
Proof.
  unfold simulate_sweep_from_file, try_except, load_sweep, simulate_sweep,
    write_sweep_response, neuron_run, set_dt, lift, bind, logging, ret, raise.
  cbn [files neuron log].
  destruct (get_sweep (files st) input n) as [data|e] eqn:Hload;
    cbn [files neuron log].
  2: { intros H. injection H as <- <-. split; [now left | discriminate]. }
  destruct (true_divide 1 (sampling_rate data)) as [d|e] eqn:Hdiv;
    cbn [files neuron log].
  2: { intros H. injection H as <- <-. split; [now left | discriminate]. }
  destruct (run _ iv it ia (stimulus data)) as [[out|e] after] eqn:Hrun;
    cbn [files neuron log].
  2: { intros H. injection H as <- <-. split; [now left | discriminate]. }
  destruct (set_sweep (files st) output n None (Some (voltage out)))
    as [[[]|e] written] eqn:Hwrite; cbn [files neuron log].
  - intros H. injection H as <- <-. cbn [files neuron]. split.
    + right. exists (voltage out). now rewrite Hwrite.
    + intros _. exists data, d, out. auto.
  - intros H. injection H as <- <-. cbn [files]. split; [|discriminate].
    right. exists (voltage out). now rewrite Hwrite.
Qed.

Lemma for_each_app {A} (body : A -> M exc model disk unit) (l1 l2 : list A)
    (st : state exc model disk) :
  for_each body (l1 ++ l2) st =
  match for_each body l1 st with
  | (Done _, st1) => for_each body l2 st1
  | (Raised e, st1) => (Raised e, st1)
  end.
Proof.
  revert st. induction l1 as [|a t IH]; intros st; simpl.
  - reflexivity.
  - unfold bind. destruct (body a st) as [[[]|e] st1].
    + apply IH.
    + reflexivity.
Qed.

(** X20: main stops at the first sweep that cannot be loaded: the
    exception ends the run, the sweeps before it keep their effects, and the
    sweeps after it are neither loaded nor written. *)
Theorem main_stops_at_first_load_failure (args : args_t)
    (config : config_t value sweep_properties)
    (before after : list Z) (n : Z)
    (st st1 : state exc model disk) (e : exc) :
  sweep_numbers key_error args config = Done (before ++ n :: after) ->
  for_each (fun k => sweep_from_file k (filename config) (output_file args)
                       (init_voltage config) (init_threshold config)
                       (init_AScurrents config)) before st
  = (Done tt, st1) ->
  get_sweep (files st1) (filename config) n = Raised e ->
  main get_sweep set_sweep run true_divide key_error args config st
  = (Raised e,
     {| files := files st1; neuron := neuron st1;
        log := log st1 ++ [(DEBUG, LoadingSweep n);
                           (WARNING, FailedToLoad e)] |}).
Proof.
  intros Hnum Hbefore Hload.
  unfold main. unfold bind at 1. unfold lift. rewrite Hnum.
  unfold bind at 1. rewrite for_each_app, Hbefore.
  cbn [for_each]. unfold bind at 1.
  rewrite (load_failure_run n (filename config) (output_file args)
             (init_voltage config) (init_threshold config)
             (init_AScurrents config) st1 e Hload).
  reflexivity.
Qed.

Lemma loaded_sweeps_app (l1 l2 : list (level * message exc)) :
  loaded_sweeps (l1 ++ l2) = loaded_sweeps l1 ++ loaded_sweeps l2.
Proof. unfold loaded_sweeps. apply flat_map_app. Qed.

(** Each call announces the loading of its sweep, once. *)
Lemma sweep_from_file_announces (n : Z) (input output : String.string)
    (iv it ia : value) (st st' : state exc model disk)
    (o : outcome exc unit) :
  sweep_from_file n input output iv it ia st = (o, st') ->
  loaded_sweeps (log st') = loaded_sweeps (log st) ++ [n].
Proof.
  unfold simulate_sweep_from_file, try_except, load_sweep, simulate_sweep,
    write_sweep_response, neuron_run, set_dt, lift, bind, logging, ret, raise.
  cbn [files neuron log].
  destruct (get_sweep (files st) input n) as [data|e];
    cbn [files neuron log].
  2: { intros H. injection H as <- <-. cbn [log].
       rewrite !loaded_sweeps_app. cbn. now rewrite !app_nil_r. }
  destruct (true_divide 1 (sampling_rate data)) as [d|e];
    cbn [files neuron log].
  2: { intros H. injection H as <- <-. cbn [log].
       rewrite !loaded_sweeps_app. cbn. now rewrite !app_nil_r. }
  destruct (run _ iv it ia (stimulus data)) as [[out|e] after];
    cbn [files neuron log].
  2: { intros H. injection H as <- <-. cbn [log].
       rewrite !loaded_sweeps_app. cbn. now rewrite !app_nil_r. }
  destruct (set_sweep (files st) output n None (Some (voltage out)))
    as [[[]|e] written]; cbn [files neuron log];
    intros H; injection H as <- <-; cbn [log];
    rewrite !loaded_sweeps_app; cbn; now rewrite !app_nil_r.
Qed.

Lemma for_each_announces (input output : String.string) (iv it ia : value)
    (numbers : list Z) :
  forall (st st' : state exc model disk) (o : outcome exc unit),
    for_each (fun k => sweep_from_file k input output iv it ia) numbers st
    = (o, st') ->
    exists reached rest,
      numbers = reached ++ rest
      /\ loaded_sweeps (log st') = loaded_sweeps (log st) ++ reached
      /\ (o = Done tt -> rest = []).
Proof.
  induction numbers as [|n t IH]; intros st st' o H.
  - cbn in H. injection H as <- <-. exists [], [].
    repeat split. now rewrite app_nil_r.
  - cbn [for_each] in H. unfold bind in H.
    destruct (sweep_from_file n input output iv it ia st)
      as [[[]|e] st1] eqn:Hn.
    + apply sweep_from_file_announces in Hn.
      destruct (IH st1 st' o H) as (reached & rest & -> & Hlog & Hdone).
      exists (n :: reached), rest. repeat split; auto.
      rewrite Hlog, Hn, <- app_assoc. reflexivity.
    + apply sweep_from_file_announces in Hn.
      injection H as <- <-. exists [n], t. repeat split; auto.
      discriminate.
Qed.

(** X21: main loads the sweeps in the order of the sweep numbers, each one
    once, up to the first failure: the sweeps announced in the log are an
    initial part of the sweep numbers, all of them when main returns
    normally.  Without a stimulus name the sweep numbers are the positions
    0, 1, .., of the configured sweeps. *)
Theorem main_loads_sweeps_in_order (args : args_t)
    (config : config_t value sweep_properties) (numbers : list Z)
    (st st' : state exc model disk) (o : outcome exc unit) :
  sweep_numbers key_error args config = Done numbers ->
  main get_sweep set_sweep run true_divide key_error args config st
  = (o, st') ->
  (exists reached rest,
     numbers = reached ++ rest
     /\ loaded_sweeps (log st') = loaded_sweeps (log st) ++ reached
     /\ (o = Done tt -> rest = []))
  /\ (stimulus_name args = None ->
      numbers = map Z.of_nat (seq 0 (length (sweeps config)))).
Proof.
  intros Hnum Hmain. split.
  - unfold main in Hmain. unfold bind at 1 in Hmain. unfold lift in Hmain.
    rewrite Hnum in Hmain. unfold bind in Hmain.
    destruct (for_each _ numbers st) as [[[]|e] st1] eqn:Hloop.
    + destruct (for_each_announces _ _ _ _ _ _ _ _ _ Hloop)
        as (reached & rest & Heq & Hlog & Hdone).
      unfold logging in Hmain. injection Hmain as <- <-. cbn [log].
      exists reached, rest. repeat split; auto.
      rewrite loaded_sweeps_app, Hlog. cbn. now rewrite app_nil_r.
    + destruct (for_each_announces _ _ _ _ _ _ _ _ _ Hloop)
        as (reached & rest & Heq & Hlog & Hdone).
      injection Hmain as <- <-. exists reached, rest. repeat split; auto.
  - intros Hnone. unfold sweep_numbers in Hnum. rewrite Hnone in Hnum.
    injection Hnum as <-. reflexivity.
Qed.

End SimulationProperties.

Lemma load_failure_is_logged_and_reraised_witness :
  simulate_sweep_from_file sample_get_sweep sample_set_sweep sample_run
    sample_divide 2 String.EmptyString String.EmptyString 0 1 0 sample_state
  = (Raised 2%Z,
     {| files := []; neuron := {| dt := NaN; model_state := tt |};
        log := [(DEBUG, LoadingSweep 2); (WARNING, FailedToLoad 2%Z)] |}).
Proof.
  apply (load_failure_is_logged_and_reraised Z (list Q) Q unit sample_disk
           sample_get_sweep sample_set_sweep sample_run sample_divide
           2 String.EmptyString String.EmptyString 0 1 0 sample_state 2%Z).
  reflexivity.
Defined.

Lemma run_failure_keeps_new_time_step_witness :
  simulate_sweep_from_file sample_get_sweep sample_set_sweep failing_run
    sample_divide 1 String.EmptyString String.EmptyString 0 1 0 sample_state
  = (Raised 7%Z,
     {| files := [];
        neuron := {| dt := fdiv (Fin 1) (Fin 1000); model_state := tt |};
        log := [(DEBUG, LoadingSweep 1); (DEBUG, LoadTime);
                (DEBUG, Simulating)] |}).
Proof.
  apply (run_failure_keeps_new_time_step Z (list Q) Q unit sample_disk
           sample_get_sweep sample_set_sweep failing_run sample_divide
           1 String.EmptyString String.EmptyString 0 1 0 sample_state
           {| sampling_rate := 1000; stimulus := [1; 1] |}
           (fdiv (Fin 1) (Fin 1000)) 7%Z
           {| dt := fdiv (Fin 1) (Fin 1000); model_state := tt |});
    reflexivity.
Defined.

Lemma sweep_is_written_once_witness :
  exists st',
    simulate_sweep_from_file sample_get_sweep sample_set_sweep sample_run
      sample_divide 1 String.EmptyString String.EmptyString 0 1 0
      sample_state = (Done tt, st')
    /\ (files st' = files sample_state
        \/ exists response,
             files st' = snd (sample_set_sweep (files sample_state)
                                String.EmptyString 1 None (Some response)))
    /\ files st' = [(String.EmptyString, 1%Z, [1; 1])].
Proof.
  eexists. split; [vm_compute; reflexivity|]. split; [|reflexivity].
  apply (sweep_is_written_once Z (list Q) Q unit sample_disk
           sample_get_sweep sample_set_sweep sample_run sample_divide
           1 String.EmptyString String.EmptyString 0 1 0 sample_state
           _ (Done tt)).
  vm_compute. reflexivity.
Defined.

Lemma main_stops_at_first_load_failure_witness :
  exists st',
    main sample_get_sweep sample_set_sweep sample_run sample_divide
         sample_key_error sample_args (sample_config 4) sample_state
    = (Raised 2%Z, st')
    /\ files st' = [(String.EmptyString, 0%Z, [0; 1]);
                    (String.EmptyString, 1%Z, [1; 1])]
    /\ loaded_sweeps (log st') = [0; 1; 2]%Z.
Proof.
  eexists. split.
  - apply (main_stops_at_first_load_failure Z (list Q) Q unit sample_disk
             unit sample_get_sweep sample_set_sweep sample_run sample_divide
             sample_key_error sample_args (sample_config 4)
             [0; 1]%Z [3]%Z 2 sample_state);
      [reflexivity | vm_compute; reflexivity | reflexivity].
  - split; reflexivity.
Defined.

Lemma main_loads_sweeps_in_order_witness :
  exists st',
    main sample_get_sweep sample_set_sweep sample_run sample_divide
         sample_key_error sample_args (sample_config 2) sample_state
    = (Done tt, st')
    /\ exists reached rest,
         [0; 1]%Z = reached ++ rest
         /\ loaded_sweeps (log st') = loaded_sweeps (log sample_state)
                                      ++ reached
         /\ (Done (exc := Z) tt = Done tt -> rest = []).
Proof.
  eexists. split; [vm_compute; reflexivity|].
  apply (main_loads_sweeps_in_order Z (list Q) Q unit sample_disk unit
           sample_get_sweep sample_set_sweep sample_run sample_divide
           sample_key_error sample_args (sample_config 2) [0; 1]%Z
           sample_state _ (Done tt));
    vm_compute; reflexivity.
Defined.
